(** * Leaf-spine topology generator: node identifiers and layered graph queries

    A shallow embedding of [ripl/leafspinetopo.py] (classes [NodeID],
    [StructuredTopo], [LeafSpineTopo] and its nested [LeafSpineNodeID]) and of
    [leaf-spine.py] (class [MyTopo]).

    The sources are Python 2 (integer [/] is floor division, [range] builds a
    list).  Python integers are unbounded and are modelled by [Z]; the bit
    operators [&], [<<] and [>>] are [Z.land], [Z.shiftl] and [Z.shiftr].
    Python exceptions are modelled by an error monad. *)

From Stdlib Require Import ZArith QArith Lia Ascii String.
From Stdlib Require Import DecimalString HexadecimalString DecimalZ DecimalPos.
From stdpp Require Import gmap strings list.

Local Open Scope string_scope.
Local Open Scope Z_scope.

#[local] Set Warnings "-clear-no-such-hyp".

(** ** Python primitives used by the sources *)

Module Py.

(** The built-in exception classes that the modelled statements can raise. *)
Inductive exn : Type :=
| KeyError (key : string)
| ValueError (msg : string)
| IndexError
| TypeError
| OverflowError.

Inductive result (A : Type) : Type :=
| Ok (a : A)
| Raise (e : exn).
Arguments Ok {A} a.
Arguments Raise {A} e.

Definition bind {A B} (m : result A) (f : A -> result B) : result B :=
  match m with
  | Ok a => f a
  | Raise e => Raise e
  end.

Definition is_ok {A} (m : result A) : bool :=
  match m with Ok _ => true | Raise _ => false end.

(** [[f(x) for x in xs]] for a fallible [f]: left to right, the first
    exception aborts the comprehension. *)
Fixpoint mapM {A B} (f : A -> result B) (xs : list A) : result (list B) :=
  match xs with
  | [] => Ok []
  | x :: xs' =>
      bind (f x) (fun y => bind (mapM f xs') (fun ys => Ok (y :: ys)))
  end.

(** [[x for x in xs if p(x)]] for a fallible test [p]. *)
Fixpoint filterM {A} (p : A -> result bool) (xs : list A) : result (list A) :=
  match xs with
  | [] => Ok []
  | x :: xs' =>
      bind (p x) (fun b =>
      bind (filterM p xs') (fun ys => Ok (if b then x :: ys else ys)))
  end.

(** [for x in xs: body] over a state [S]. *)
Fixpoint for_ {A S} (xs : list A) (body : A -> S -> result S) (s : S)
  : result S :=
  match xs with
  | [] => Ok s
  | x :: xs' => bind (body x s) (for_ xs' body)
  end.

(** [range(lo, hi)]. *)
Definition range (lo hi : Z) : list Z :=
  List.map (fun i => lo + Z.of_nat i) (seq 0 (Z.to_nat (hi - lo))).

(** ["%i" % z]. *)
Definition fmt_i (z : Z) : string :=
  DecimalString.NilZero.string_of_int (Z.to_int z).

Fixpoint zeros (n : nat) : string :=
  match n with
  | O => ""
  | S n' => String "0"%char (zeros n')
  end.

(** ["%0<width>x" % z]: lower-case hexadecimal, the sign first, then
    zeros up to the width, then the digits. *)
Definition fmt_0x (width : nat) (z : Z) : string :=
  let digits :=
    HexadecimalString.NilZero.string_of_uint (N.to_hex_uint (Z.abs_N z)) in
  let sign := if z <? 0 then "-" else "" in
  sign +:+ zeros (width - String.length sign - String.length digits)
       +:+ digits.

(** [s.split(sep)] for a one-character separator. *)
Fixpoint split (sep : ascii) (s : string) : list string :=
  match s with
  | EmptyString => [EmptyString]
  | String c s' =>
      if Ascii.eqb c sep then EmptyString :: split sep s'
      else match split sep s' with
           | w :: ws => String c w :: ws
           | [] => [String c EmptyString]
           end
  end.

Definition is_space (c : ascii) : bool :=
  let n := nat_of_ascii c in
  ((9 <=? n) && (n <=? 13) || (n =? 32))%nat.

Fixpoint lstrip (s : string) : string :=
  match s with
  | EmptyString => EmptyString
  | String c s' => if is_space c then lstrip s' else s
  end.

Fixpoint rstrip (s : string) : string :=
  match s with
  | EmptyString => EmptyString
  | String c s' =>
      match rstrip s' with
      | EmptyString => if is_space c then EmptyString
                       else String c EmptyString
      | r => String c r
      end
  end.

Definition invalid_literal : exn :=
  ValueError "invalid literal for int() with base 10".

Definition digits_value (s : string) : result Z :=
  match DecimalString.NilZero.uint_of_string s with
  | Some d => Ok (Z.of_uint d)
  | None => Raise invalid_literal
  end.

(** [int(s)] on a string: surrounding white space is dropped, one sign is
    accepted, and at least one decimal digit must follow. *)
Definition int (s : string) : result Z :=
  match rstrip (lstrip s) with
  | String "-"%char ds => bind (digits_value ds) (fun v => Ok (- v))
  | String "+"%char ds => digits_value ds
  | ds => digits_value ds
  end.

(** Truth value of an optional integer argument ([None] and [0] are false)
    and of an optional string argument ([None] and [""] are false). *)
Definition truthy_int (o : option Z) : option Z :=
  match o with
  | Some z => if z =? 0 then None else Some z
  | None => None
  end.

Definition truthy_str (o : option string) : option string :=
  match o with
  | Some EmptyString => None
  | Some s => Some s
  | None => None
  end.

End Py.

Import Py.

(** The error monad in stdpp's monad classes, for the [x ← m; k] notation. *)
#[global] Instance result_ret : MRet result := @Ok.
#[global] Instance result_bind : MBind result := fun A B f m => Py.bind m f.

(** ** [PORT_BASE] and class [NodeID] *)

(** Starting index for OpenFlow switch ports. *)
Definition PORT_BASE : Z := 1.

Module NodeID.

(** [self.dpid] is whatever the constructor received, [None] by default. *)
Record t : Type := mk { dpid : option Z }.

Definition init (dpid : option Z) : t := mk dpid.

Definition name_str (self : t) : string :=
  match dpid self with
  | Some d => fmt_i d
  | None => "None"
  end.

(** [hi = (self.dpid & 0xff00) >> 8; lo = self.dpid & 0xff;
    return "10.0.%i.%i" % (hi, lo)]. *)
Definition ip_str (self : t) : result string :=
  match dpid self with
  | Some d =>
      let hi := Z.shiftr (Z.land d 0xff00) 8 in
      let lo := Z.land d 0xff in
      Ok ("10.0." +:+ fmt_i hi +:+ "." +:+ fmt_i lo)
  | None => Raise TypeError
  end.

End NodeID.

(** ** Class [LeafSpineTopo.LeafSpineNodeID] *)

Module LeafSpineNodeID.

Record t : Type := mk { sw : Z; host : Z; dpid : Z }.

(** [__init__(self, sw = 0, host = 0, dpid = None, name = None)]. *)
Definition init (sw host : Z) (dpid : option Z) (name : option string)
  : result t :=
  match truthy_int dpid with
  | Some d =>
      Ok (mk (Z.shiftr (Z.land d 0xff00) 8) (Z.land d 0xff) d)
  | None =>
      match truthy_str name with
      | Some n =>
          fields ← mapM Py.int (split "_"%char n);
          match fields with
          | [sw'; host'] => Ok (mk sw' host' (Z.shiftl sw' 8 + host'))
          | _ => Raise (ValueError "unpack")
          end
      | None => Ok (mk sw host (Z.shiftl sw 8 + host))
      end
  end.

(** The inherited part of the object, as the base-class methods see it. *)
Definition as_NodeID (self : t) : NodeID.t := NodeID.mk (Some (dpid self)).

Definition name_str (self : t) : string :=
  fmt_i (sw self) +:+ "_" +:+ fmt_i (host self).

Definition mac_str (self : t) : string :=
  "00:00:00:00:" +:+ fmt_0x 2 (sw self) +:+ ":" +:+ fmt_0x 2 (host self).

Definition ip_str (self : t) : string :=
  "10.0." +:+ fmt_i (sw self) +:+ "." +:+ fmt_i (host self).

End LeafSpineNodeID.

(** ** The emulator's graph base class *)

Module Topo.

(** Modelled from the spec: [mininet.topo.Topo], the emulator's graph base
    class ([addSwitch], [addHost], [addLink], the graph [g] and the
    dictionary [node_info]), is not part of the sources.  It is modelled as
    the specification describes the graph: vertices tagged with metadata,
    and a set of undirected edges, each optionally tagged with bandwidth
    and delay; [g[name]] is the adjacency list of [name]. *)

(** The keyword dictionary of a vertex: the keys that the sources set. *)
Record node_opts : Type := mk_node_opts {
  layer : option Z;
  isSwitch : bool;
  ip : option string;
  mac : option string;
  dpid : option string
}.

Record link_opts : Type := mk_link_opts {
  bw : option Z;
  delay : option string
}.

Definition no_link_opts : link_opts := mk_link_opts None None.

Record t : Type := mk {
  g : gmap string (list string);
  node_info : gmap string node_opts;
  link_info : list (string * string * link_opts)
}.

Definition init : t := mk ∅ ∅ [].

Definition g_add_node (name : string) (gr : gmap string (list string))
  : gmap string (list string) :=
  match gr !! name with
  | Some _ => gr
  | None => <[name := []]> gr
  end.

Definition g_add_neighbor (a b : string) (gr : gmap string (list string))
  : gmap string (list string) :=
  let ns := default [] (gr !! a) in
  <[a := if decide (b ∈ ns) then ns else (ns ++ [b])%list]> gr.

(** An undirected edge: each endpoint enters the other's adjacency list. *)
Definition g_add_edge (a b : string) (gr : gmap string (list string))
  : gmap string (list string) :=
  g_add_neighbor b a (g_add_neighbor a b gr).

Definition addNode (name : string) (opts : node_opts) (self : t) : t :=
  mk (g_add_node name (g self)) (<[name := opts]> (node_info self))
     (link_info self).

Definition addHost (name : string) (opts : node_opts) (self : t) : t :=
  addNode name opts self.

Definition addSwitch (name : string) (opts : node_opts) (self : t) : t :=
  addNode name
    (mk_node_opts (layer opts) true (ip opts) (mac opts) (dpid opts)) self.

Definition addLink (node1 node2 : string) (opts : link_opts) (self : t)
  : t :=
  mk (g_add_edge node1 node2 (g self)) (node_info self)
     (link_info self ++ [(node1, node2, opts)])%list.

(** [self.g.nodes()]. *)
Definition nodes (self : t) : list string := (map_to_list (g self)).*1.

(** [self.g[name]]. *)
Definition neighbors (self : t) (name : string) : result (list string) :=
  match g self !! name with
  | Some ns => Ok ns
  | None => Raise (KeyError name)
  end.

(** The keyword dictionary of a vertex added without keywords. *)
Definition no_opts : node_opts := mk_node_opts None false None None None.

(** Modelled from the spec: the role queries of [mininet.topo.Topo], which
    is not part of the sources.  The role tag of a vertex is read from its
    metadata: [isSwitch(n)] looks the vertex up in [node_info];
    [switches()] and [hosts()] are the vertices of the graph that are,
    respectively are not, tagged as switches. *)
Definition node_isSwitch (self : t) (n : string) : result bool :=
  match node_info self !! n with
  | Some d => Ok (isSwitch d)
  | None => Raise (KeyError n)
  end.

Definition switches (self : t) : result (list string) :=
  filterM (node_isSwitch self) (nodes self).

Definition hosts (self : t) : result (list string) :=
  filterM (fun n => b ← node_isSwitch self n; Ok (negb b)) (nodes self).

End Topo.

(** ** Class [StructuredTopo] *)

Module StructuredTopo.

Record StructuredNodeSpec : Type := mk_node_spec {
  up_total : Z;
  down_total : Z;
  up_speed : option Q;
  down_speed : option Q;
  type_str : option string
}.

Record StructuredEdgeSpec : Type := mk_edge_spec { speed : Q }.

Record t : Type := mk {
  topo : Topo.t;
  node_specs : list StructuredNodeSpec;
  edge_specs : list StructuredEdgeSpec
}.

Definition init (node_specs : list StructuredNodeSpec)
    (edge_specs : list StructuredEdgeSpec) : t :=
  mk Topo.init node_specs edge_specs.

(** [def_nopts(self, layer)]: [{'layer': layer}]. *)
Definition def_nopts (lay : Z) : Topo.node_opts :=
  Topo.mk_node_opts (Some lay) false None None None.

(** [return self.node_info[name]['layer']]. *)
Definition layer (self : t) (name : string) : result Z :=
  match Topo.node_info (topo self) !! name with
  | None => Raise (KeyError name)
  | Some d =>
      match Topo.layer d with
      | Some l => Ok l
      | None => Raise (KeyError "layer")
      end
  end.

(** [return port % 2 == PORT_BASE]. *)
Definition isPortUp (port : Z) : bool := port mod 2 =? PORT_BASE.

Definition is_layer (self : t) (lay : Z) (n : string) : result bool :=
  l ← layer self n; Ok (l =? lay).

Definition layer_nodes (self : t) (lay : Z) : result (list string) :=
  filterM (is_layer self lay) (Topo.nodes (topo self)).

Definition up_nodes (self : t) (name : string) : result (list string) :=
  l ← layer self name;
  ns ← Topo.neighbors (topo self) name;
  filterM (is_layer self (l - 1)) ns.

Definition down_nodes (self : t) (name : string) : result (list string) :=
  l ← layer self name;
  ns ← Topo.neighbors (topo self) name;
  filterM (is_layer self (l + 1)) ns.

Definition up_edges (self : t) (name : string)
  : result (list (string * string)) :=
  ns ← up_nodes self name; Ok (List.map (fun n => (name, n)) ns).

Definition down_edges (self : t) (name : string)
  : result (list (string * string)) :=
  ns ← down_nodes self name; Ok (List.map (fun n => (name, n)) ns).

End StructuredTopo.

(** ** Class [LeafSpineTopo] *)

Module LeafSpineTopo.

Definition LAYER_SPINE : Z := 0.
Definition LAYER_LEAF : Z := 1.
Definition LAYER_HOST : Z := 2.

Definition id_gen := LeafSpineNodeID.init.

(** [def_nopts(self, layer, name = None)]. *)
Definition def_nopts (lay : Z) (name : option string)
  : result Topo.node_opts :=
  let d := Topo.mk_node_opts (Some lay) false None None None in
  match truthy_str name with
  | Some n =>
      id ← id_gen 0 0 None (Some n);
      let d :=
        if lay =? LAYER_HOST
        then Topo.mk_node_opts (Topo.layer d) (Topo.isSwitch d)
               (Some (LeafSpineNodeID.ip_str id))
               (Some (LeafSpineNodeID.mac_str id)) (Topo.dpid d)
        else d in
      Ok (Topo.mk_node_opts (Topo.layer d) (Topo.isSwitch d) (Topo.ip d)
            (Topo.mac d) (Some (fmt_0x 16 (LeafSpineNodeID.dpid id))))
  | None => Ok d
  end.

Record t : Type := mk { base : StructuredTopo.t; k : Z }.

(** Body of [for s in range(0, k)]: the state is the graph and [spines]. *)
Definition spine_step (s : Z) (st : Topo.t * list string)
  : result (Topo.t * list string) :=
  let '(tp, spines) := st in
  id ← id_gen 0 s None None;
  let spine_id := LeafSpineNodeID.name_str id in
  spine_opts ← def_nopts LAYER_SPINE (Some spine_id);
  Ok (Topo.addSwitch spine_id spine_opts tp, (spines ++ [spine_id])%list).

(** Body of [for h in range(0, k / 2)]. *)
Definition host_step (k l : Z) (leaf_id : string) (h : Z) (tp : Topo.t)
  : result Topo.t :=
  id ← id_gen 2 (l * (k / 2) + h) None None;
  let host_id := LeafSpineNodeID.name_str id in
  host_opts ← def_nopts LAYER_HOST (Some host_id);
  let tp := Topo.addHost host_id host_opts tp in
  Ok (Topo.addLink host_id leaf_id Topo.no_link_opts tp).

(** Body of [for s in spines]. *)
Definition uplink_step (leaf_id : string) (s : string) (tp : Topo.t)
  : result Topo.t :=
  Ok (Topo.addLink leaf_id s Topo.no_link_opts tp).

(** Body of [for l in range(0, k * 2)]. *)
Definition leaf_step (k : Z) (spines : list string) (l : Z) (tp : Topo.t)
  : result Topo.t :=
  id ← id_gen 1 l None None;
  let leaf_id := LeafSpineNodeID.name_str id in
  leaf_opts ← def_nopts LAYER_LEAF (Some leaf_id);
  let tp := Topo.addSwitch leaf_id leaf_opts tp in
  tp ← for_ (range 0 (k / 2)) (host_step k l leaf_id) tp;
  for_ spines (uplink_step leaf_id) tp.

(** [__init__(self, k = 4, speed = 1.0)].  The ranges [pods], [core_sws],
    [agg_sws], [edge_sws], [hosts], [spine_sws] and [leaf_sws] that the
    constructor also computes are never read and are left out; the speed, a
    float in the source, is only stored in the specs and is a rational
    here. *)
Definition init (k : Z) (speed : Q) : result t :=
  let spine :=
    StructuredTopo.mk_node_spec 0 (k * 2) None (Some speed) (Some "spine") in
  let leaf :=
    StructuredTopo.mk_node_spec k (k / 2) (Some speed) (Some speed)
      (Some "leaf") in
  let host :=
    StructuredTopo.mk_node_spec 1 0 (Some speed) None (Some "host") in
  let node_specs := [leaf; spine; host] in
  let edge_specs :=
    [StructuredTopo.mk_edge_spec speed; StructuredTopo.mk_edge_spec speed] in
  let self := StructuredTopo.init node_specs edge_specs in
  '(tp, spines) ← for_ (range 0 k) spine_step (StructuredTopo.topo self, []);
  tp ← for_ (range 0 (k * 2)) (leaf_step k spines) tp;
  Ok (mk (StructuredTopo.mk tp node_specs edge_specs) k).

(** The registry entry [topos['ls']] calls the class with its defaults. *)
Definition default_k : Z := 4.
Definition default_speed : Q := 1%Q.

End LeafSpineTopo.

(** ** Class [MyTopo] of [leaf-spine.py] *)

Module MyTopo.

Definition numSpine : Z := 1.
Definition numLeaf : Z := 2.
Definition numHostPerLeaf : Z := 2.

Definition bwSpineLeaf : Z := 40.
Definition bwLeafHost : Z := 10.

Definition delaySpineLeaf : string := "0.004ms".
Definition delayLeafHost : string := "0.004ms".

(** [xs[i]] on a list. *)
Definition index (xs : list string) (i : Z) : result string :=
  let j := if i <? 0 then i + Z.of_nat (length xs) else i in
  if j <? 0 then Raise IndexError
  else match xs !! Z.to_nat j with
       | Some x => Ok x
       | None => Raise IndexError
       end.

(** Body of the three vertex loops: [xs.append(self.addSwitch(p + str(i)))];
    [addSwitch] and [addHost] return the name they were given. *)
Definition switch_step (prefix : string) (i : Z) (st : Topo.t * list string)
  : result (Topo.t * list string) :=
  let name := prefix +:+ fmt_i i in
  Ok (Topo.addSwitch name Topo.no_opts (fst st), (snd st ++ [name])%list).

Definition host_step (i : Z) (st : Topo.t * list string)
  : result (Topo.t * list string) :=
  let name := "h" +:+ fmt_i i in
  Ok (Topo.addHost name Topo.no_opts (fst st), (snd st ++ [name])%list).

Definition spine_leaf_link (spines leafs : list string) (i j : Z)
    (tp : Topo.t) : result Topo.t :=
  a ← index spines i;
  b ← index leafs j;
  Ok (Topo.addLink a b
        (Topo.mk_link_opts (Some bwSpineLeaf) (Some delaySpineLeaf)) tp).

Definition leaf_host_link (leafs hosts : list string) (i j : Z)
    (tp : Topo.t) : result Topo.t :=
  a ← index leafs i;
  b ← index hosts (i * numHostPerLeaf + j);
  Ok (Topo.addLink a b
        (Topo.mk_link_opts (Some bwLeafHost) (Some delayLeafHost)) tp).

(** [__init__(self)]: the object is the graph; the lists [spines], [leafs]
    and [hosts] are locals and are gone when the constructor returns. *)
Definition init : result Topo.t :=
  '(tp, spines) ← for_ (range 0 numSpine) (switch_step "s") (Topo.init, []);
  '(tp, leafs) ← for_ (range 0 numLeaf) (switch_step "l") (tp, []);
  '(tp, hosts) ←
    for_ (range 0 (numHostPerLeaf * numLeaf)) host_step (tp, []);
  tp ← for_ (range 0 numSpine)
         (fun i => for_ (range 0 numLeaf) (spine_leaf_link spines leafs i))
         tp;
  tp ← for_ (range 0 numLeaf)
         (fun i =>
            for_ (range 0 numHostPerLeaf) (leaf_host_link leafs hosts i))
         tp;
  Ok tp.

End MyTopo.

(** ** Auxiliary predicates for the proofs *)

(** The characters that ["%i"] can print: decimal digits and the sign. *)
Definition num_char (c : ascii) : bool :=
  let n := nat_of_ascii c in
  ((48 <=? n) && (n <=? 57) || (n =? 45))%nat.

Definition digit_char (c : ascii) : bool :=
  let n := nat_of_ascii c in ((48 <=? n) && (n <=? 57))%nat.

Fixpoint all_chars (p : ascii -> bool) (s : string) : bool :=
  match s with
  | EmptyString => true
  | String c s' => p c && all_chars p s'
  end.

(** Adjacency list of a vertex, empty for a vertex the graph does not have. *)
Definition nbrs (gr : gmap string (list string)) (a : string) : list string :=
  default [] (gr !! a).

Definition adj (tp : Topo.t) (a : string) : list string :=
  nbrs (Topo.g tp) a.

(** What the layer queries rely on: adjacency is symmetric, every vertex of
    the graph carries a layer, and only vertices of the graph have metadata. *)
Record wf (tp : Topo.t) : Prop := mk_wf {
  wf_sym : forall a b, b ∈ adj tp a -> a ∈ adj tp b;
  wf_layer : forall a, a ∈ dom (Topo.g tp) ->
    exists d l, Topo.node_info tp !! a = Some d /\ Topo.layer d = Some l;
  wf_info : forall a, is_Some (Topo.node_info tp !! a) -> a ∈ dom (Topo.g tp)
}.

(** Loop invariants of the constructor of [LeafSpineTopo]: the graph is well
    formed and the spines collected so far (and the current leaf) are
    vertices of the graph. *)
Definition spines_in (st : Topo.t * list string) : Prop :=
  wf (fst st) /\ forall s, s ∈ snd st -> s ∈ dom (Topo.g (fst st)).

Definition leaf_inv (spines : list string) (tp : Topo.t) : Prop :=
  wf tp /\ forall s, s ∈ spines -> s ∈ dom (Topo.g tp).

Definition host_inv (spines : list string) (leaf_id : string) (tp : Topo.t)
  : Prop :=
  leaf_inv spines tp /\ leaf_id ∈ dom (Topo.g tp).

(** [MyTopo] tells its spine switches from its leaf switches by name only:
    it names them ['s' + str(i)] and ['l' + str(i)]. *)
Definition starts_with (c : ascii) (n : string) : bool :=
  match n with
  | String c' _ => Ascii.eqb c' c
  | EmptyString => false
  end.

(** Number of occurrences of a character in a string. *)
Fixpoint count_char (c : ascii) (s : string) : nat :=
  match s with
  | EmptyString => O
  | String c' s' => (if Ascii.eqb c' c then 1 else 0) + count_char c s'
  end.

(** The identifier that the builder makes from fields, and its name. *)
Definition node_id (sw idx : Z) : LeafSpineNodeID.t :=
  LeafSpineNodeID.mk sw idx (Z.shiftl sw 8 + idx).

Definition name_of (sw idx : Z) : string :=
  LeafSpineNodeID.name_str (node_id sw idx).

(** What a vertex of a built graph carries: its name is the name of an
    identifier of layer 0, 1 or 2, and its keywords are the ones that
    [def_nopts] derives from that identifier ([addSwitch] sets [isSwitch]). *)
Definition tagged (name : string) (d : Topo.node_opts) : Prop :=
  exists sw idx,
    name = name_of sw idx /\ 0 <= sw <= 2 /\
    d = Topo.mk_node_opts (Some sw) (negb (sw =? LeafSpineTopo.LAYER_HOST))
          (if sw =? LeafSpineTopo.LAYER_HOST
           then Some (LeafSpineNodeID.ip_str (node_id sw idx)) else None)
          (if sw =? LeafSpineTopo.LAYER_HOST
           then Some (LeafSpineNodeID.mac_str (node_id sw idx)) else None)
          (Some (fmt_0x 16 (LeafSpineNodeID.dpid (node_id sw idx)))).

Definition info_ok (tp : Topo.t) : Prop :=
  forall name d, Topo.node_info tp !! name = Some d -> tagged name d.

Definition adj_nodup (tp : Topo.t) : Prop := forall a, NoDup (adj tp a).

(** The observable content of the state of the constructor: the vertices,
    the adjacency and the list [spines]. *)
Inductive item : Type :=
| Vertex (a : string)
| Edge (a b : string)
| Spine (s : string).

Definition view (tp : Topo.t) (spines : list string) (t : item) : Prop :=
  match t with
  | Vertex a => a ∈ dom (Topo.g tp)
  | Edge a b => b ∈ adj tp a
  | Spine s => s ∈ spines
  end.

(** What [addNode name] and [addLink a b] add to the content. *)
Definition vertex (name : string) (t : item) : Prop :=
  match t with
  | Vertex x => x = name
  | _ => False
  end.

Definition link (a b : string) (t : item) : Prop :=
  match t with
  | Vertex x => x = a \/ x = b
  | Edge x y => (x = a /\ y = b) \/ (x = b /\ y = a)
  | Spine _ => False
  end.

(** What one iteration of each loop of the constructor adds. *)
Definition new_spine (s : Z) (t : item) : Prop :=
  match t with
  | Vertex x => x = name_of 0 s
  | Edge _ _ => False
  | Spine x => x = name_of 0 s
  end.

Definition new_host (k l h : Z) (t : item) : Prop :=
  vertex (name_of 2 (l * (k / 2) + h)) t \/
  link (name_of 2 (l * (k / 2) + h)) (name_of 1 l) t.

Definition new_leaf (k : Z) (spines : list string) (l : Z) (t : item)
  : Prop :=
  vertex (name_of 1 l) t \/
  (exists h, h ∈ range 0 (k / 2) /\ new_host k l h t) \/
  (exists s, s ∈ spines /\ link (name_of 1 l) s t).

Definition good (tp : Topo.t) : Prop := info_ok tp /\ adj_nodup tp.

(** The vertices that leaf [l] is linked to: every spine, and its hosts. *)
Definition target (k l : Z) (x : string) : Prop :=
  (exists s, 0 <= s < k /\ x = name_of 0 s) \/
  (exists h, 0 <= h < k / 2 /\ x = name_of 2 (l * (k / 2) + h)).

Example fmt_i_ex : (fmt_i 0, fmt_i 15, fmt_i (-3)) = ("0", "15", "-3").
Proof. reflexivity. Qed.

Example fmt_0x_ex :
  (fmt_0x 2 10, fmt_0x 2 256, fmt_0x 16 513, fmt_0x 3 (-1))
  = ("0a", "100", "0000000000000201", "-01").
Proof. reflexivity. Qed.

Example split_ex :
  (split "_"%char "1_12", split "_"%char "", split "_"%char "_a_")
  = (["1"; "12"], [""], [""; "a"; ""]).
Proof. reflexivity. Qed.

Example int_ex :
  (Py.int " 42 ", Py.int "-7", Py.int "007", Py.int "", Py.int "4x")
  = (Ok 42, Ok (-7), Ok 7, Raise invalid_literal, Raise invalid_literal).
Proof. reflexivity. Qed.

Example init_name_ex :
  LeafSpineNodeID.init 0 0 None (Some "2_5")
  = Ok (LeafSpineNodeID.mk 2 5 517).
Proof. reflexivity. Qed.


(** ** Bit lanes of the handle *)

Section Lanes.

Variables sw host : Z.
Hypothesis Hsw : 0 <= sw <= 255.
Hypothesis Hhost : 0 <= host <= 255.

Lemma lane_hi : Z.shiftr (Z.land (Z.shiftl sw 8 + host) 0xff00) 8 = sw.
Proof.
  rewrite Z.shiftr_land.
  change (Z.shiftr 0xff00 8) with (Z.ones 8).
  rewrite Z.land_ones by lia.
  rewrite Z.shiftr_div_pow2, Z.shiftl_mul_pow2 by lia.
  change (2 ^ 8) with 256.
  rewrite Z.div_add_l, (Z.div_small host), Z.add_0_r by lia.
  apply Z.mod_small; lia.
Qed.

Lemma lane_lo : Z.land (Z.shiftl sw 8 + host) 0xff = host.
Proof.
  change 0xff with (Z.ones 8).
  rewrite Z.land_ones, Z.shiftl_mul_pow2 by lia.
  change (2 ^ 8) with 256.
  rewrite Z.add_comm, Z.mod_add by lia.
  apply Z.mod_small; lia.
Qed.

Lemma handle_zero_fields : Z.shiftl sw 8 + host = 0 -> sw = 0 /\ host = 0.
Proof. rewrite Z.shiftl_mul_pow2 by lia. change (2 ^ 8) with 256. lia. Qed.

End Lanes.

(** Decoding a handle that was packed from in-range fields. *)
Lemma init_dpid_pack sw host :
  0 <= sw <= 255 -> 0 <= host <= 255 ->
  LeafSpineNodeID.init 0 0 (Some (Z.shiftl sw 8 + host)) None
  = Ok (LeafSpineNodeID.mk sw host (Z.shiftl sw 8 + host)).
Proof.
  intros Hsw Hhost. unfold LeafSpineNodeID.init, truthy_int.
  destruct (Z.eqb_spec (Z.shiftl sw 8 + host) 0) as [E|_].
  - destruct (handle_zero_fields sw host Hsw Hhost E) as [-> ->]. reflexivity.
  - now rewrite lane_hi, lane_lo.
Qed.

(** C1: for in-range fields the constructor packs the handle
    [(sw << 8) + host], and the constructor applied to that handle gives
    back exactly the fields [sw] and [host]. *)
Theorem handle_roundtrip (sw host : Z) :
  0 <= sw <= 255 -> 0 <= host <= 255 ->
  exists id id',
    LeafSpineNodeID.init sw host None None = Ok id /\
    LeafSpineNodeID.dpid id = Z.shiftl sw 8 + host /\
    LeafSpineNodeID.init 0 0 (Some (LeafSpineNodeID.dpid id)) None = Ok id' /\
    LeafSpineNodeID.sw id' = sw /\
    LeafSpineNodeID.host id' = host /\
    id' = id.
Proof.
  intros Hsw Hhost.
  exists (LeafSpineNodeID.mk sw host (Z.shiftl sw 8 + host)).
  exists (LeafSpineNodeID.mk sw host (Z.shiftl sw 8 + host)).
  cbn [LeafSpineNodeID.dpid LeafSpineNodeID.sw LeafSpineNodeID.host].
  rewrite init_dpid_pack by assumption.
  repeat split; reflexivity.
Qed.

Lemma handle_roundtrip_witness :
  exists id id',
    LeafSpineNodeID.init 3 200 None None = Ok id /\
    LeafSpineNodeID.dpid id = Z.shiftl 3 8 + 200 /\
    LeafSpineNodeID.init 0 0 (Some (LeafSpineNodeID.dpid id)) None = Ok id' /\
    LeafSpineNodeID.sw id' = 3 /\
    LeafSpineNodeID.host id' = 200 /\
    id' = id.
Proof. apply (handle_roundtrip 3 200); lia. Defined.

(** ** Port parity *)

(** C4: the port base is an upward port, the next port is not, and from the
    base on the direction alternates with every port number. *)
Theorem isPortUp_alternates :
  StructuredTopo.isPortUp PORT_BASE = true /\
  StructuredTopo.isPortUp (PORT_BASE + 1) = false /\
  forall p : Z, PORT_BASE <= p ->
    StructuredTopo.isPortUp (p + 1) = negb (StructuredTopo.isPortUp p).
Proof.
  split; [reflexivity|]. split; [reflexivity|].
  intros p _. unfold StructuredTopo.isPortUp, PORT_BASE.
  pose proof (Z.mod_pos_bound p 2 ltac:(lia)) as Hp.
  pose proof (Z.mod_pos_bound (p + 1) 2 ltac:(lia)) as Hq.
  assert (Hs : (p + 1) mod 2 = 1 - p mod 2).
  { rewrite (Z.div_mod p 2) at 1 by lia.
    replace (2 * (p / 2) + p mod 2 + 1) with (p mod 2 + 1 + (p / 2) * 2) by lia.
    rewrite Z.mod_add by lia.
    assert (Hc : p mod 2 = 0 \/ p mod 2 = 1) by lia.
    destruct Hc as [-> | ->]; reflexivity. }
  rewrite Hs.
  destruct (Z.eqb_spec (p mod 2) 1), (Z.eqb_spec (1 - p mod 2) 1);
    simpl; try reflexivity; lia.
Qed.

Lemma isPortUp_alternates_witness :
  StructuredTopo.isPortUp (7 + 1) = negb (StructuredTopo.isPortUp 7).
Proof.
  apply (proj2 (proj2 isPortUp_alternates) 7). unfold PORT_BASE. lia.
Defined.

(** ** Encoding never checks the lane width *)

Lemma init_fields sw host :
  LeafSpineNodeID.init sw host None None
  = Ok (LeafSpineNodeID.mk sw host (Z.shiftl sw 8 + host)).
Proof. reflexivity. Qed.

(** C5, as stated, fails: the field value 256 is packed without an error. *)
Lemma encode_256_no_overflow :
  LeafSpineNodeID.init 0 256 None None = Ok (LeafSpineNodeID.mk 0 256 256) /\
  LeafSpineNodeID.init 0 0 (Some 256) None = Ok (LeafSpineNodeID.mk 1 0 256).
Proof. split; reflexivity. Qed.

(** C5, amended: packing never fails, whatever the size of the fields; the
    handle is [(sw << 8) + host] and the fields are stored as given. *)
Theorem encode_total (sw host : Z) :
  exists id,
    LeafSpineNodeID.init sw host None None = Ok id /\
    LeafSpineNodeID.sw id = sw /\
    LeafSpineNodeID.host id = host /\
    LeafSpineNodeID.dpid id = Z.shiftl sw 8 + host.
Proof. eexists. rewrite init_fields. repeat split. Qed.

(** ** The two address derivations agree *)

(** C10: for in-range fields the base-class address, computed from bits 8-15
    and 0-7 of the handle, is the subclass address computed from the fields,
    namely ["10.0.<sw>.<host>"]. *)
Theorem ip_str_agree (sw host : Z) :
  0 <= sw <= 255 -> 0 <= host <= 255 ->
  exists id,
    LeafSpineNodeID.init sw host None None = Ok id /\
    NodeID.ip_str (LeafSpineNodeID.as_NodeID id)
    = Ok (LeafSpineNodeID.ip_str id) /\
    LeafSpineNodeID.ip_str id = "10.0." +:+ fmt_i sw +:+ "." +:+ fmt_i host.
Proof.
  intros Hsw Hhost. eexists. rewrite init_fields. split; [reflexivity|].
  split; [|reflexivity].
  unfold NodeID.ip_str, LeafSpineNodeID.as_NodeID, LeafSpineNodeID.ip_str.
  cbn [NodeID.dpid LeafSpineNodeID.dpid LeafSpineNodeID.sw
       LeafSpineNodeID.host].
  now rewrite lane_hi, lane_lo.
Qed.

Lemma ip_str_agree_witness :
  exists id,
    LeafSpineNodeID.init 2 10 None None = Ok id /\
    NodeID.ip_str (LeafSpineNodeID.as_NodeID id)
    = Ok (LeafSpineNodeID.ip_str id) /\
    LeafSpineNodeID.ip_str id = "10.0." +:+ fmt_i 2 +:+ "." +:+ fmt_i 10.
Proof. apply (ip_str_agree 2 10); lia. Defined.

Example ip_str_ex :
  NodeID.ip_str (NodeID.init (Some 522)) = Ok "10.0.2.10".
Proof. reflexivity. Qed.

(** ** Printing and parsing decimal numbers *)

Lemma num_char_not_space c : num_char c = true -> is_space c = false.
Proof.
  destruct c as [[] [] [] [] [] [] [] []]; vm_compute; congruence.
Qed.

Lemma num_char_not_underscore c :
  num_char c = true -> Ascii.eqb c "_" = false.
Proof.
  destruct c as [[] [] [] [] [] [] [] []]; vm_compute; congruence.
Qed.

Lemma digit_is_num_char c : digit_char c = true -> num_char c = true.
Proof.
  unfold digit_char, num_char. cbv zeta. intros ->. reflexivity.
Qed.

Lemma all_chars_impl (p q : ascii -> bool) s :
  (forall c, p c = true -> q c = true) ->
  all_chars p s = true -> all_chars q s = true.
Proof.
  intros Hpq. induction s as [|c s IH]; [reflexivity|]. simpl.
  intros [Hc Hs]%andb_prop. now rewrite (Hpq c Hc), IH.
Qed.

Lemma uint_digits d :
  all_chars digit_char (DecimalString.NilEmpty.string_of_uint d) = true.
Proof. induction d; simpl; auto. Qed.

Lemma uint_digits_nz d :
  all_chars digit_char (DecimalString.NilZero.string_of_uint d) = true.
Proof. destruct d; try reflexivity; apply (uint_digits (_ _)). Qed.

Lemma uint_nonempty d :
  DecimalString.NilZero.string_of_uint d <> "".
Proof. destruct d; discriminate. Qed.

Lemma fmt_i_num_chars z : all_chars num_char (fmt_i z) = true.
Proof.
  unfold fmt_i.
  destruct (Z.to_int z) as [d|d]; simpl.
  - apply (all_chars_impl digit_char); [apply digit_is_num_char|].
    apply uint_digits_nz.
  - apply (all_chars_impl digit_char); [apply digit_is_num_char|].
    apply uint_digits_nz.
Qed.

Lemma fmt_i_nonempty z : fmt_i z <> "".
Proof.
  unfold fmt_i. destruct (Z.to_int z) as [d|d]; simpl;
    [apply uint_nonempty | discriminate].
Qed.

Lemma lstrip_num s : all_chars num_char s = true -> lstrip s = s.
Proof.
  destruct s as [|c s]; [reflexivity|]. simpl.
  intros [Hc _]%andb_prop. now rewrite (num_char_not_space c Hc).
Qed.

Lemma rstrip_num s : all_chars num_char s = true -> rstrip s = s.
Proof.
  induction s as [|c s IH]; [reflexivity|]. simpl.
  intros [Hc Hs]%andb_prop. rewrite (IH Hs), (num_char_not_space c Hc).
  now destruct s.
Qed.

Lemma digits_value_uint d :
  digits_value (DecimalString.NilZero.string_of_uint d) = Ok (Z.of_uint d).
Proof.
  unfold digits_value.
  destruct d; [reflexivity | ..];
    now rewrite DecimalString.NilZero.usu.
Qed.

(** A string of digits is read by the last branch of [int]. *)
Lemma int_digits s :
  s <> "" -> all_chars digit_char s = true ->
  Py.int s = digits_value s.
Proof.
  intros Hne Hd.
  assert (Hn : all_chars num_char s = true).
  { revert Hd. apply all_chars_impl, digit_is_num_char. }
  unfold Py.int. rewrite (lstrip_num s Hn), (rstrip_num s Hn).
  destruct s as [|c s]; [congruence|].
  simpl in Hd. apply andb_prop in Hd as [Hc _].
  destruct c as [[] [] [] [] [] [] [] []]; try reflexivity;
    vm_compute in Hc; congruence.
Qed.

(** [int("%i" % z) == z] for every integer. *)
Lemma int_fmt_i z : Py.int (fmt_i z) = Ok z.
Proof.
  rewrite <- (DecimalZ.of_to z) at 2.
  unfold fmt_i. destruct (Z.to_int z) as [d|d].
  - cbn [DecimalString.NilZero.string_of_int Z.of_int].
    rewrite int_digits by (apply uint_nonempty || apply uint_digits_nz).
    apply digits_value_uint.
  - cbn [DecimalString.NilZero.string_of_int Z.of_int].
    unfold Py.int.
    assert (Hn : all_chars num_char
              (String "-" (DecimalString.NilZero.string_of_uint d)) = true).
    { simpl. apply (all_chars_impl digit_char);
        [apply digit_is_num_char | apply uint_digits_nz]. }
    rewrite (lstrip_num _ Hn), (rstrip_num _ Hn).
    rewrite digits_value_uint. reflexivity.
Qed.

(** Splitting at a separator that occurs once. *)
Lemma split_no_sep s :
  all_chars num_char s = true -> split "_" s = [s].
Proof.
  induction s as [|c s IH]; [reflexivity|]. simpl.
  intros [Hc Hs]%andb_prop.
  now rewrite (num_char_not_underscore c Hc), (IH Hs).
Qed.

Lemma split_joined s1 s2 :
  all_chars num_char s1 = true -> all_chars num_char s2 = true ->
  split "_" (s1 +:+ "_" +:+ s2) = [s1; s2].
Proof.
  intros H1 H2. induction s1 as [|c s1 IH].
  - change (split "_" ("" +:+ "_" +:+ s2)) with ("" :: split "_" s2).
    now rewrite (split_no_sep s2 H2).
  - simpl in H1. apply andb_prop in H1 as [Hc H1]. simpl.
    now rewrite (num_char_not_underscore c Hc), (IH H1).
Qed.

Lemma name_str_truthy id :
  exists c s, LeafSpineNodeID.name_str id = String c s.
Proof.
  unfold LeafSpineNodeID.name_str.
  pose proof (fmt_i_nonempty (LeafSpineNodeID.sw id)) as Hne.
  destruct (fmt_i (LeafSpineNodeID.sw id)) as [|c s]; [congruence|].
  simpl. eauto.
Qed.

(** Parsing the name of an identifier built from fields gives it back. *)
Lemma init_name_str sw host :
  LeafSpineNodeID.init 0 0 None
    (Some (LeafSpineNodeID.name_str
             (LeafSpineNodeID.mk sw host (Z.shiftl sw 8 + host))))
  = Ok (LeafSpineNodeID.mk sw host (Z.shiftl sw 8 + host)).
Proof.
  unfold LeafSpineNodeID.init. cbn [truthy_int].
  destruct (name_str_truthy
              (LeafSpineNodeID.mk sw host (Z.shiftl sw 8 + host)))
    as (c & s & E).
  rewrite E. cbn [truthy_str]. rewrite <- E.
  unfold LeafSpineNodeID.name_str.
  cbn [LeafSpineNodeID.sw LeafSpineNodeID.host].
  rewrite split_joined by apply fmt_i_num_chars.
  cbn [mapM]. rewrite !int_fmt_i. reflexivity.
Qed.

(** C8: for non-negative fields, the name is the two decimal numbers joined
    by an underscore, and the constructor applied to that name gives back
    exactly the fields. *)
Theorem name_roundtrip (sw host : Z) :
  0 <= sw -> 0 <= host ->
  exists id id',
    LeafSpineNodeID.init sw host None None = Ok id /\
    LeafSpineNodeID.name_str id = fmt_i sw +:+ "_" +:+ fmt_i host /\
    all_chars digit_char (fmt_i sw) = true /\
    all_chars digit_char (fmt_i host) = true /\
    LeafSpineNodeID.init 0 0 None (Some (LeafSpineNodeID.name_str id))
    = Ok id' /\
    LeafSpineNodeID.sw id' = sw /\
    LeafSpineNodeID.host id' = host.
Proof.
  intros Hsw Hhost.
  exists (LeafSpineNodeID.mk sw host (Z.shiftl sw 8 + host)).
  exists (LeafSpineNodeID.mk sw host (Z.shiftl sw 8 + host)).
  rewrite init_fields, init_name_str.
  assert (Hd : forall z, 0 <= z -> all_chars digit_char (fmt_i z) = true).
  { intros z Hz. unfold fmt_i. destruct z as [|p|p]; [reflexivity| |lia].
    apply uint_digits_nz. }
  repeat split; auto.
Qed.

Lemma name_roundtrip_witness :
  exists id id',
    LeafSpineNodeID.init 1 12 None None = Ok id /\
    LeafSpineNodeID.name_str id = fmt_i 1 +:+ "_" +:+ fmt_i 12 /\
    all_chars digit_char (fmt_i 1) = true /\
    all_chars digit_char (fmt_i 12) = true /\
    LeafSpineNodeID.init 0 0 None (Some (LeafSpineNodeID.name_str id))
    = Ok id' /\
    LeafSpineNodeID.sw id' = 1 /\
    LeafSpineNodeID.host id' = 12.
Proof. apply (name_roundtrip 1 12); lia. Defined.

Example name_str_ex :
  LeafSpineNodeID.name_str (LeafSpineNodeID.mk 1 12 268) = "1_12".
Proof. reflexivity. Qed.

(** ** The graph operations keep the graph well formed *)

Section GraphOps.

Implicit Types (gr : gmap string (list string)) (tp : Topo.t).

Lemma nbrs_add_node gr name x :
  nbrs (Topo.g_add_node name gr) x = nbrs gr x.
Proof.
  unfold nbrs, Topo.g_add_node.
  destruct (gr !! name) eqn:E; [reflexivity|].
  destruct (decide (name = x)) as [->|Hne].
  - now rewrite lookup_insert_eq, E.
  - now rewrite lookup_insert_ne.
Qed.

Lemma dom_add_node gr name :
  dom (Topo.g_add_node name gr) = {[name]} ∪ dom gr.
Proof.
  unfold Topo.g_add_node. destruct (gr !! name) eqn:E.
  - symmetry. apply subseteq_union_1_L, singleton_subseteq_l, elem_of_dom.
    eauto.
  - apply dom_insert_L.
Qed.

Lemma nbrs_add_neighbor gr a b x y :
  y ∈ nbrs (Topo.g_add_neighbor a b gr) x
  <-> y ∈ nbrs gr x \/ (x = a /\ y = b).
Proof.
  unfold Topo.g_add_neighbor, nbrs.
  destruct (decide (a = x)) as [->|Hne].
  - rewrite lookup_insert_eq. cbn [default]. case_decide as Hin.
    + unfold id. split; [auto|]. intros [H|[_ ->]]; assumption.
    + unfold id. rewrite elem_of_app, list_elem_of_singleton. tauto.
  - rewrite lookup_insert_ne by assumption.
    split; [auto|]. intros [H|[-> _]]; [assumption|].
    congruence.
Qed.

Lemma dom_add_neighbor gr a b :
  dom (Topo.g_add_neighbor a b gr) = {[a]} ∪ dom gr.
Proof. apply dom_insert_L. Qed.

Lemma nbrs_add_edge gr a b x y :
  y ∈ nbrs (Topo.g_add_edge a b gr) x
  <-> y ∈ nbrs gr x \/ (x = a /\ y = b) \/ (x = b /\ y = a).
Proof.
  unfold Topo.g_add_edge. rewrite !nbrs_add_neighbor. tauto.
Qed.

Lemma dom_add_edge gr a b :
  dom (Topo.g_add_edge a b gr) = {[a; b]} ∪ dom gr.
Proof.
  unfold Topo.g_add_edge. rewrite !dom_add_neighbor. set_solver.
Qed.

Lemma nbrs_in_dom gr a b : b ∈ nbrs gr a -> a ∈ dom gr.
Proof.
  unfold nbrs. intros H. apply elem_of_dom.
  destruct (gr !! a); [eauto|]. cbn in H. now apply elem_of_nil in H.
Qed.

Lemma wf_init : wf Topo.init.
Proof.
  split.
  - intros a b H. unfold adj, nbrs, Topo.init in H. cbn in H.
    rewrite lookup_empty in H. now apply elem_of_nil in H.
  - intros a H. cbn in H. set_solver.
  - intros a [d H]. cbn in H. now rewrite lookup_empty in H.
Qed.

Lemma dom_addNode name opts tp :
  dom (Topo.g (Topo.addNode name opts tp)) = {[name]} ∪ dom (Topo.g tp).
Proof. apply dom_add_node. Qed.

Lemma dom_addLink a b o tp :
  dom (Topo.g (Topo.addLink a b o tp)) = {[a; b]} ∪ dom (Topo.g tp).
Proof. apply dom_add_edge. Qed.

Lemma adj_addLink a b o tp x y :
  y ∈ adj (Topo.addLink a b o tp) x
  <-> y ∈ adj tp x \/ (x = a /\ y = b) \/ (x = b /\ y = a).
Proof. apply nbrs_add_edge. Qed.

Lemma wf_addNode name opts tp :
  wf tp -> is_Some (Topo.layer opts) -> wf (Topo.addNode name opts tp).
Proof.
  intros [Hsym Hlay Hinfo] [l Hl]. split.
  - intros a b. unfold adj, Topo.addNode. cbn [Topo.g].
    rewrite !nbrs_add_node. apply Hsym.
  - intros a. rewrite dom_addNode. cbn [Topo.addNode Topo.node_info].
    destruct (decide (name = a)) as [->|Hne].
    + intros _. rewrite lookup_insert_eq. eauto.
    + rewrite lookup_insert_ne by assumption. intros Ha. apply Hlay.
      set_solver.
  - intros a. rewrite dom_addNode. cbn [Topo.addNode Topo.node_info].
    destruct (decide (name = a)) as [->|Hne]; [set_solver|].
    rewrite lookup_insert_ne by assumption. intros Ha%Hinfo. set_solver.
Qed.

Lemma wf_addSwitch name opts tp :
  wf tp -> is_Some (Topo.layer opts) -> wf (Topo.addSwitch name opts tp).
Proof. intros Hwf Hl. now apply wf_addNode. Qed.

Lemma wf_addHost name opts tp :
  wf tp -> is_Some (Topo.layer opts) -> wf (Topo.addHost name opts tp).
Proof. intros Hwf Hl. now apply wf_addNode. Qed.

Lemma wf_addLink a b o tp :
  wf tp -> a ∈ dom (Topo.g tp) -> b ∈ dom (Topo.g tp) ->
  wf (Topo.addLink a b o tp).
Proof.
  intros [Hsym Hlay Hinfo] Ha Hb. split.
  - intros x y. rewrite !adj_addLink. intros [H|H]; [left; auto|tauto].
  - intros x. rewrite dom_addLink. cbn [Topo.addLink Topo.node_info].
    intros Hx. apply Hlay. set_solver.
  - intros x. rewrite dom_addLink. cbn [Topo.addLink Topo.node_info].
    intros Hx%Hinfo. set_solver.
Qed.

Lemma adj_closed tp a b : wf tp -> b ∈ adj tp a -> b ∈ dom (Topo.g tp).
Proof. intros Hwf H%(wf_sym tp Hwf). exact (nbrs_in_dom _ _ _ H). Qed.

Lemma elem_of_nodes tp a : a ∈ Topo.nodes tp <-> a ∈ dom (Topo.g tp).
Proof.
  unfold Topo.nodes. rewrite list_elem_of_fmap, elem_of_dom. split.
  - intros [[k v] [-> H%elem_of_map_to_list]]. eauto.
  - intros [v H]. exists (a, v). split; [reflexivity|].
    now apply elem_of_map_to_list.
Qed.

End GraphOps.

(** ** Loops and comprehensions *)

Lemma for_inv {A S} (P : S -> Prop) (xs : list A) (body : A -> S -> result S) :
  (forall x s, x ∈ xs -> P s -> exists s', body x s = Ok s' /\ P s') ->
  forall s, P s -> exists s', for_ xs body s = Ok s' /\ P s'.
Proof.
  induction xs as [|x xs IH]; intros Hbody s Hs; cbn [for_].
  - eauto.
  - destruct (Hbody x s) as (s1 & E1 & H1); [left | assumption |].
    rewrite E1. cbn [bind]. apply IH; [|assumption].
    intros y s2 Hy. apply Hbody. now right.
Qed.

Lemma filterM_spec {A} (p : A -> result bool) (xs : list A) :
  (forall x, x ∈ xs -> exists b, p x = Ok b) ->
  exists ys, filterM p xs = Ok ys /\
    forall x, x ∈ ys <-> x ∈ xs /\ p x = Ok true.
Proof.
  induction xs as [|x xs IH]; intros Hp; cbn [filterM].
  - exists []. split; [reflexivity|]. intros x. rewrite elem_of_nil. tauto.
  - destruct (Hp x) as [b Hb]; [left|].
    destruct IH as (ys & E & Hys); [intros y Hy; apply Hp; now right|].
    rewrite Hb, E. cbn [bind]. eexists. split; [reflexivity|].
    intros y. rewrite elem_of_cons. destruct b.
    + rewrite elem_of_cons, Hys. split.
      * intros [->|[? ?]]; auto.
      * intros [[->|?] ?]; auto.
    + rewrite Hys. split.
      * intros [? ?]; auto.
      * intros [[->|?] ?]; [congruence|auto].
Qed.

(** ** The layer queries on a well-formed graph *)

Section Queries.

Variable self : StructuredTopo.t.
Hypothesis Hwf : wf (StructuredTopo.topo self).

Abbreviation tp := (StructuredTopo.topo self).

Lemma layer_defined a :
  a ∈ dom (Topo.g tp) -> exists l, StructuredTopo.layer self a = Ok l.
Proof.
  intros Ha. destruct (wf_layer _ Hwf a Ha) as (d & l & Hd & Hl).
  exists l. unfold StructuredTopo.layer. now rewrite Hd, Hl.
Qed.

Lemma layer_missing a :
  a ∉ dom (Topo.g tp) ->
  StructuredTopo.layer self a = Raise (KeyError a).
Proof.
  intros Ha. unfold StructuredTopo.layer.
  destruct (Topo.node_info tp !! a) eqn:E; [|reflexivity].
  exfalso. apply Ha, (wf_info _ Hwf). eauto.
Qed.

Lemma neighbors_adj a :
  a ∈ dom (Topo.g tp) -> Topo.neighbors tp a = Ok (adj tp a).
Proof.
  intros [ns E]%elem_of_dom. unfold Topo.neighbors, adj, nbrs.
  now rewrite E.
Qed.

Lemma is_layer_adj a lay b :
  b ∈ adj tp a -> exists r, StructuredTopo.is_layer self lay b = Ok r.
Proof.
  intros Hb. destruct (layer_defined b) as [l Hl].
  { now apply (adj_closed tp a b Hwf). }
  unfold StructuredTopo.is_layer. rewrite Hl. cbn. eauto.
Qed.

Lemma is_layer_true lay b :
  StructuredTopo.is_layer self lay b = Ok true
  <-> StructuredTopo.layer self b = Ok lay.
Proof.
  unfold StructuredTopo.is_layer.
  destruct (StructuredTopo.layer self b) as [l|e]; cbn.
  - split.
    + intros [= H%Z.eqb_eq]. now subst.
    + intros [= ->]. now rewrite Z.eqb_refl.
  - split; discriminate.
Qed.

Lemma up_nodes_spec a l :
  StructuredTopo.layer self a = Ok l -> a ∈ dom (Topo.g tp) ->
  exists ns, StructuredTopo.up_nodes self a = Ok ns /\
    forall b, b ∈ ns
      <-> b ∈ adj tp a /\ StructuredTopo.layer self b = Ok (l - 1).
Proof.
  intros Hl Ha. unfold StructuredTopo.up_nodes.
  rewrite Hl, (neighbors_adj a Ha). cbn.
  destruct (filterM_spec (StructuredTopo.is_layer self (l - 1)) (adj tp a))
    as (ns & E & Hns); [intros b; apply is_layer_adj|].
  exists ns. split; [exact E|].
  intros b. now rewrite Hns, is_layer_true.
Qed.

Lemma down_nodes_spec a l :
  StructuredTopo.layer self a = Ok l -> a ∈ dom (Topo.g tp) ->
  exists ns, StructuredTopo.down_nodes self a = Ok ns /\
    forall b, b ∈ ns
      <-> b ∈ adj tp a /\ StructuredTopo.layer self b = Ok (l + 1).
Proof.
  intros Hl Ha. unfold StructuredTopo.down_nodes.
  rewrite Hl, (neighbors_adj a Ha). cbn.
  destruct (filterM_spec (StructuredTopo.is_layer self (l + 1)) (adj tp a))
    as (ns & E & Hns); [intros b; apply is_layer_adj|].
  exists ns. split; [exact E|].
  intros b. now rewrite Hns, is_layer_true.
Qed.

(** Both readings of an edge: [b] below [a], and [b] above [a]. *)
Lemma edge_both_readings a b :
  b ∈ adj tp a ->
  exists da ub ua db,
    StructuredTopo.down_nodes self a = Ok da /\
    StructuredTopo.up_nodes self b = Ok ub /\
    StructuredTopo.up_nodes self a = Ok ua /\
    StructuredTopo.down_nodes self b = Ok db /\
    (b ∈ da <-> a ∈ ub) /\
    (b ∈ ua <-> a ∈ db).
Proof.
  intros Hab.
  pose proof (wf_sym _ Hwf a b Hab) as Hba.
  pose proof (nbrs_in_dom _ _ _ Hab) as Ha.
  pose proof (nbrs_in_dom _ _ _ Hba) as Hb.
  destruct (layer_defined a Ha) as [la Hla].
  destruct (layer_defined b Hb) as [lb Hlb].
  destruct (down_nodes_spec a la Hla Ha) as (da & Eda & Hda).
  destruct (up_nodes_spec b lb Hlb Hb) as (ub & Eub & Hub).
  destruct (up_nodes_spec a la Hla Ha) as (ua & Eua & Hua).
  destruct (down_nodes_spec b lb Hlb Hb) as (db & Edb & Hdb).
  exists da, ub, ua, db. repeat (split; [assumption|]).
  rewrite Hda, Hub, Hua, Hdb, Hla, Hlb. split; split.
  - intros [_ [= ->]]. split; [assumption|]. f_equal. lia.
  - intros [_ [= ->]]. split; [assumption|]. f_equal. lia.
  - intros [_ [= ->]]. split; [assumption|]. f_equal. lia.
  - intros [_ [= ->]]. split; [assumption|]. f_equal. lia.
Qed.

Lemma queries_missing a :
  a ∉ Topo.nodes tp ->
  StructuredTopo.layer self a = Raise (KeyError a) /\
  StructuredTopo.up_nodes self a = Raise (KeyError a) /\
  StructuredTopo.down_nodes self a = Raise (KeyError a).
Proof.
  rewrite elem_of_nodes. intros Ha%layer_missing.
  unfold StructuredTopo.up_nodes, StructuredTopo.down_nodes.
  rewrite Ha. repeat split.
Qed.

End Queries.

(** ** The constructor of [LeafSpineTopo] *)

Lemma def_nopts_name lay sw host :
  exists d,
    LeafSpineTopo.def_nopts lay
      (Some (LeafSpineNodeID.name_str
               (LeafSpineNodeID.mk sw host (Z.shiftl sw 8 + host))))
    = Ok d /\ Topo.layer d = Some lay.
Proof.
  unfold LeafSpineTopo.def_nopts, LeafSpineTopo.id_gen.
  destruct (name_str_truthy
              (LeafSpineNodeID.mk sw host (Z.shiftl sw 8 + host)))
    as (c & s & E).
  rewrite E. cbn [truthy_str]. rewrite <- E, init_name_str. cbn.
  eexists. split; [reflexivity|].
  destruct (lay =? LeafSpineTopo.LAYER_HOST); reflexivity.
Qed.

Section Build.

Variable k : Z.

Lemma spine_step_ok s st :
  spines_in st ->
  exists st', LeafSpineTopo.spine_step s st = Ok st' /\ spines_in st'.
Proof.
  destruct st as [tp spines]. intros [Hwf Hsp].
  unfold LeafSpineTopo.spine_step, LeafSpineTopo.id_gen.
  rewrite init_fields. unfold mbind, result_bind. cbn [bind].
  destruct (def_nopts_name LeafSpineTopo.LAYER_SPINE 0 s) as (d & E & Hd).
  rewrite E. cbn [bind]. eexists. split; [reflexivity|].
  split; cbn [fst snd].
  - apply wf_addSwitch; [assumption|]. rewrite Hd. eauto.
  - unfold Topo.addSwitch. intros x. rewrite dom_addNode, elem_of_app.
    rewrite list_elem_of_singleton. intros [Hx%Hsp| ->]; set_solver.
Qed.

Variable spines : list string.

Lemma host_step_ok l leaf_id h tp :
  host_inv spines leaf_id tp ->
  exists tp', LeafSpineTopo.host_step k l leaf_id h tp = Ok tp' /\
    host_inv spines leaf_id tp'.
Proof.
  intros [[Hwf Hsp] Hleaf].
  unfold LeafSpineTopo.host_step, LeafSpineTopo.id_gen.
  rewrite init_fields. unfold mbind, result_bind. cbn [bind].
  destruct (def_nopts_name LeafSpineTopo.LAYER_HOST 2 (l * (k / 2) + h))
    as (d & E & Hd).
  rewrite E. cbn [bind]. eexists. split; [reflexivity|].
  set (host_id := LeafSpineNodeID.name_str _).
  assert (Hwf' : wf (Topo.addHost host_id d tp)).
  { apply wf_addHost; [assumption|]. rewrite Hd. eauto. }
  assert (Hdom : dom (Topo.g (Topo.addHost host_id d tp))
                 = {[host_id]} ∪ dom (Topo.g tp)) by apply dom_addNode.
  split; [split|].
  - apply wf_addLink; [assumption|rewrite Hdom..]; set_solver.
  - intros s Hs%Hsp. rewrite dom_addLink, Hdom. set_solver.
  - rewrite dom_addLink, Hdom. set_solver.
Qed.

Lemma uplink_step_ok leaf_id s tp :
  s ∈ spines -> host_inv spines leaf_id tp ->
  exists tp', LeafSpineTopo.uplink_step leaf_id s tp = Ok tp' /\
    host_inv spines leaf_id tp'.
Proof.
  intros Hs [[Hwf Hsp] Hleaf]. unfold LeafSpineTopo.uplink_step.
  eexists. split; [reflexivity|]. split; [split|].
  - apply wf_addLink; auto.
  - intros x Hx%Hsp. rewrite dom_addLink. set_solver.
  - rewrite dom_addLink. set_solver.
Qed.

Lemma leaf_step_ok l tp :
  leaf_inv spines tp ->
  exists tp', LeafSpineTopo.leaf_step k spines l tp = Ok tp' /\ leaf_inv spines tp'.
Proof.
  intros [Hwf Hsp].
  unfold LeafSpineTopo.leaf_step, LeafSpineTopo.id_gen.
  rewrite init_fields. unfold mbind, result_bind. cbn [bind].
  destruct (def_nopts_name LeafSpineTopo.LAYER_LEAF 1 l) as (d & E & Hd).
  rewrite E. cbn [bind].
  set (leaf_id := LeafSpineNodeID.name_str _).
  assert (H0 : host_inv spines leaf_id (Topo.addSwitch leaf_id d tp)).
  { unfold Topo.addSwitch. split; [split|].
    - apply wf_addNode; [assumption|]. cbn. rewrite Hd. eauto.
    - intros s Hs%Hsp. rewrite dom_addNode. set_solver.
    - rewrite dom_addNode. set_solver. }
  destruct (for_inv (host_inv spines leaf_id) (range 0 (k / 2))
              (LeafSpineTopo.host_step k l leaf_id)) with
    (s := Topo.addSwitch leaf_id d tp) as (tp1 & E1 & H1);
    [intros h t _; apply host_step_ok | exact H0 |].
  rewrite E1. cbn [bind].
  destruct (for_inv (host_inv spines leaf_id) spines
              (LeafSpineTopo.uplink_step leaf_id)) with (s := tp1)
    as (tp2 & E2 & H2);
    [intros s t Hs; now apply uplink_step_ok | exact H1 |].
  exists tp2. split; [exact E2 | apply H2].
Qed.

End Build.

(** The constructor returns for every [k], and the graph is well formed. *)
Lemma init_wf k speed :
  exists t, LeafSpineTopo.init k speed = Ok t /\
    wf (StructuredTopo.topo (LeafSpineTopo.base t)).
Proof.
  unfold LeafSpineTopo.init. cbn [StructuredTopo.init StructuredTopo.topo].
  destruct (for_inv spines_in (range 0 k) LeafSpineTopo.spine_step)
    with (s := (Topo.init, @nil string)) as ([tp spines] & E1 & H1 & H1').
  { intros s st _. apply spine_step_ok. }
  { split; [apply wf_init|]. cbn. intros s Hs. now apply elem_of_nil in Hs. }
  unfold mbind, result_bind. rewrite E1. cbn [bind fst snd] in *.
  destruct (for_inv (leaf_inv spines) (range 0 (k * 2))
              (LeafSpineTopo.leaf_step k spines)) with (s := tp)
    as (tp2 & E2 & H2 & _).
  { intros l t _. apply leaf_step_ok. }
  { split; assumption. }
  rewrite E2. cbn [bind]. eexists. split; [reflexivity|]. exact H2.
Qed.

(** ** Concrete builds *)

Ltac by_compute := apply (bool_decide_unpack _); vm_compute; exact I.

(** A query on the graph [t] that a constructor returned ([E : c = Ok t])
    is evaluated together with the constructor. *)
Ltac via E :=
  lazymatch type of E with
  | ?c = Ok ?t =>
    lazymatch goal with
    | |- ?lhs = _ =>
      lazymatch eval pattern t in lhs with
      | ?F _ =>
        let r := eval vm_compute in (Py.bind c F) in
        let H := fresh in
        assert (H : Py.bind c F = r) by (vm_compute; reflexivity);
        rewrite E in H; exact H
      end
    end
  end.

Ltac via_pure E :=
  lazymatch type of E with
  | ?c = Ok ?t =>
    lazymatch goal with
    | |- ?lhs = _ =>
      lazymatch eval pattern t in lhs with
      | ?F _ =>
        let r := eval vm_compute in (Py.bind c (fun x => Ok (F x))) in
        let H := fresh in
        assert (H : Py.bind c (fun x => Ok (F x)) = r)
          by (vm_compute; reflexivity);
        rewrite E in H; cbv beta iota delta [Py.bind] in H;
        injection H as H; exact H
      end
    end
  end.

(** [Forall] over an explicit list, element by element. *)
Ltac each tac :=
  repeat (apply Forall_cons_2; [solve [tac]|]); apply Forall_nil_2.

(** C2: the build with [k = 4] has 4 spines, 8 leaves and 16 hosts; every
    leaf has exactly 4 up-edges, one to each spine, and exactly 2 down-edges,
    both to hosts whose only up-edge comes back to that leaf; every host has
    exactly 1 up-edge, to a leaf. *)
Theorem leafspine_k4 :
  exists t spines leaves hosts,
    LeafSpineTopo.init 4 1%Q = Ok t /\
    StructuredTopo.layer_nodes (LeafSpineTopo.base t) LeafSpineTopo.LAYER_SPINE
    = Ok spines /\
    StructuredTopo.layer_nodes (LeafSpineTopo.base t) LeafSpineTopo.LAYER_LEAF
    = Ok leaves /\
    StructuredTopo.layer_nodes (LeafSpineTopo.base t) LeafSpineTopo.LAYER_HOST
    = Ok hosts /\
    length spines = 4%nat /\ length leaves = 8%nat /\
    length hosts = 16%nat /\
    length (Topo.nodes (StructuredTopo.topo (LeafSpineTopo.base t))) = 28%nat /\
    Forall (fun l => exists ups downs,
      StructuredTopo.up_edges (LeafSpineTopo.base t) l = Ok ups /\
      StructuredTopo.down_edges (LeafSpineTopo.base t) l = Ok downs /\
      ups ≡ₚ List.map (fun s => (l, s)) spines /\
      length downs = 2%nat /\ NoDup downs /\
      Forall (fun e =>
        fst e = l /\ snd e ∈ hosts /\
        StructuredTopo.up_edges (LeafSpineTopo.base t) (snd e)
        = Ok [(snd e, l)]) downs) leaves /\
    Forall (fun h => exists l,
      l ∈ leaves /\
      StructuredTopo.up_edges (LeafSpineTopo.base t) h = Ok [(h, l)]) hosts.
Proof.
  destruct (LeafSpineTopo.init 4 1%Q) as [t|e] eqn:E;
    [|vm_compute in E; discriminate].
  exists t. do 3 eexists.
  split; [reflexivity|]. split; [via E|]. split; [via E|]. split; [via E|].
  split; [reflexivity|]. split; [reflexivity|]. split; [reflexivity|].
  split; [via_pure E|]. split.
  - each ltac:(
      do 2 eexists; split; [via E|]; split; [via E|];
      split; [by_compute|]; split; [reflexivity|]; split; [by_compute|];
      each ltac:(split; [reflexivity|]; split; [by_compute|via E])).
  - each ltac:(eexists; split; [|via E]; by_compute).
Qed.

(** The value of a query on the returned graph, put in place of the query. *)
Ltac fix_value E x :=
  let H := fresh in
  eassert (H : x = _) by via_pure E; rewrite !H; clear H.

(** C9: [MyTopo] (1 spine, 2 leaves, 2 hosts per leaf) builds a graph whose
    metadata tags exactly 3 vertices as switches, the spine [s0] and the
    leaves [l0] and [l1], and exactly 4 vertices, [h0] to [h3], as hosts,
    and these 7 are all its vertices; each leaf has exactly 1 link up, to
    the spine, and exactly 2 links down, to hosts; the spine has exactly 2
    links, down to the leaves; each host has exactly 1 link, up to a leaf. *)
Theorem mytopo_counts :
  exists t switches hosts spines leaves,
    MyTopo.init = Ok t /\
    Topo.switches t = Ok switches /\
    Topo.hosts t = Ok hosts /\
    spines = List.filter (starts_with "s") switches /\
    leaves = List.filter (starts_with "l") switches /\
    switches ≡ₚ (spines ++ leaves)%list /\
    Topo.nodes t ≡ₚ (spines ++ leaves ++ hosts)%list /\
    spines = ["s0"] /\
    leaves ≡ₚ ["l0"; "l1"] /\
    hosts ≡ₚ ["h0"; "h1"; "h2"; "h3"] /\
    length (Topo.link_info t) = 6%nat /\
    Forall (fun l => exists ns,
      Topo.neighbors t l = Ok ns /\
      filter (fun n => n ∈ spines) ns = ["s0"] /\
      length (filter (fun n => n ∈ hosts) ns) = 2%nat /\
      length ns = 3%nat /\ NoDup ns) leaves /\
    Forall (fun s => exists ns,
      Topo.neighbors t s = Ok ns /\
      filter (fun n => n ∈ leaves) ns ≡ₚ leaves /\
      length ns = 2%nat) spines /\
    Forall (fun h => exists ns,
      Topo.neighbors t h = Ok ns /\
      length (filter (fun n => n ∈ leaves) ns) = 1%nat /\
      length ns = 1%nat) hosts.
Proof.
  destruct MyTopo.init as [t|e] eqn:E; [|vm_compute in E; discriminate].
  exists t. do 4 eexists.
  split; [reflexivity|]. split; [via E|]. split; [via E|].
  split; [vm_compute; reflexivity|]. split; [vm_compute; reflexivity|].
  fix_value E (Topo.nodes t).
  split; [by_compute|]. split; [by_compute|].
  split; [reflexivity|]. split; [by_compute|]. split; [by_compute|].
  split; [via_pure E|].
  split; [|split].
  - each ltac:(eexists; split; [via E|];
               split; [vm_compute; reflexivity|];
               split; [vm_compute; reflexivity|];
               split; [reflexivity|by_compute]).
  - each ltac:(eexists; split; [via E|]; split; [by_compute|reflexivity]).
  - each ltac:(eexists; split; [via E|];
               split; [vm_compute; reflexivity|reflexivity]).
Qed.

(** ** Properties of every graph that [LeafSpineTopo] builds *)

(** C3: in the graph built for any [k], for every edge [(a, b)] the vertex
    [b] is a down-neighbour of [a] exactly when [a] is an up-neighbour of
    [b], and [b] is an up-neighbour of [a] exactly when [a] is a
    down-neighbour of [b]; all four queries return. *)
Theorem adjacency_symmetry (k : Z) (speed : Q) (t : LeafSpineTopo.t)
    (a b : string) (ns : list string) :
  LeafSpineTopo.init k speed = Ok t ->
  Topo.neighbors (StructuredTopo.topo (LeafSpineTopo.base t)) a = Ok ns ->
  b ∈ ns ->
  exists da ub ua db,
    StructuredTopo.down_nodes (LeafSpineTopo.base t) a = Ok da /\
    StructuredTopo.up_nodes (LeafSpineTopo.base t) b = Ok ub /\
    StructuredTopo.up_nodes (LeafSpineTopo.base t) a = Ok ua /\
    StructuredTopo.down_nodes (LeafSpineTopo.base t) b = Ok db /\
    (b ∈ da <-> a ∈ ub) /\
    (b ∈ ua <-> a ∈ db).
Proof.
  intros E Hns Hb.
  destruct (init_wf k speed) as (t' & E' & Hwf).
  assert (t' = t) as -> by congruence.
  apply edge_both_readings; [assumption|].
  unfold Topo.neighbors in Hns. unfold adj, nbrs.
  destruct (Topo.g (StructuredTopo.topo (LeafSpineTopo.base t)) !! a);
    [|discriminate].
  injection Hns as ->. exact Hb.
Qed.

Lemma adjacency_symmetry_witness :
  exists t da ub ua db,
    LeafSpineTopo.init 2 1%Q = Ok t /\
    StructuredTopo.down_nodes (LeafSpineTopo.base t) "1_0" = Ok da /\
    StructuredTopo.up_nodes (LeafSpineTopo.base t) "2_0" = Ok ub /\
    StructuredTopo.up_nodes (LeafSpineTopo.base t) "1_0" = Ok ua /\
    StructuredTopo.down_nodes (LeafSpineTopo.base t) "2_0" = Ok db /\
    ("2_0" ∈ da <-> "1_0" ∈ ub) /\
    ("2_0" ∈ ua <-> "1_0" ∈ db).
Proof.
  destruct (LeafSpineTopo.init 2 1%Q) as [t|e] eqn:E;
    [|vm_compute in E; discriminate].
  exists t.
  destruct (adjacency_symmetry 2 1%Q t "1_0" "2_0"
              ["2_0"; "0_0"; "0_1"] E) as (da & ub & ua & db & H).
  - via E.
  - by_compute.
  - exists da, ub, ua, db. split; [reflexivity | exact H].
Defined.

(** C7: in the graph built for any [k], the layer lookup and the up- and
    down-neighbour queries on a name that is not a vertex of the graph all
    fail with the missing-key error (Python's [KeyError], which is what the
    specification calls a not-found error). *)
Theorem unknown_vertex_fails (k : Z) (speed : Q) (t : LeafSpineTopo.t)
    (name : string) :
  LeafSpineTopo.init k speed = Ok t ->
  name ∉ Topo.nodes (StructuredTopo.topo (LeafSpineTopo.base t)) ->
  StructuredTopo.layer (LeafSpineTopo.base t) name = Raise (KeyError name) /\
  StructuredTopo.up_nodes (LeafSpineTopo.base t) name
  = Raise (KeyError name) /\
  StructuredTopo.down_nodes (LeafSpineTopo.base t) name
  = Raise (KeyError name).
Proof.
  intros E Hname.
  destruct (init_wf k speed) as (t' & E' & Hwf).
  assert (t' = t) as -> by congruence.
  now apply queries_missing.
Qed.

Lemma unknown_vertex_fails_witness :
  exists t,
    LeafSpineTopo.init 4 1%Q = Ok t /\
    StructuredTopo.layer (LeafSpineTopo.base t) "3_0"
    = Raise (KeyError "3_0") /\
    StructuredTopo.up_nodes (LeafSpineTopo.base t) "3_0"
    = Raise (KeyError "3_0") /\
    StructuredTopo.down_nodes (LeafSpineTopo.base t) "3_0"
    = Raise (KeyError "3_0").
Proof.
  destruct (LeafSpineTopo.init 4 1%Q) as [t|e] eqn:E;
    [|vm_compute in E; discriminate].
  exists t. split; [reflexivity|].
  apply (unknown_vertex_fails 4 1%Q t "3_0" E).
  fix_value E (Topo.nodes (StructuredTopo.topo (LeafSpineTopo.base t))).
  by_compute.
Defined.

(** C6, as stated, fails: the build with [k = 3] returns a graph. *)
Lemma odd_k_builds : is_ok (LeafSpineTopo.init 3 1%Q) = true.
Proof. vm_compute. reflexivity. Qed.

(** C6, amended: the constructor checks nothing about [k]; it returns a
    graph for every integer [k], and for [k = 3], where [k / 2] is 1, the
    graph has 3 spines, 6 leaves and 6 hosts, every leaf with 3 up-edges and
    1 down-edge. *)
Theorem build_never_fails :
  (forall (k : Z) (speed : Q),
     exists t, LeafSpineTopo.init k speed = Ok t) /\
  exists t spines leaves hosts,
    LeafSpineTopo.init 3 1%Q = Ok t /\
    StructuredTopo.layer_nodes (LeafSpineTopo.base t) LeafSpineTopo.LAYER_SPINE
    = Ok spines /\
    StructuredTopo.layer_nodes (LeafSpineTopo.base t) LeafSpineTopo.LAYER_LEAF
    = Ok leaves /\
    StructuredTopo.layer_nodes (LeafSpineTopo.base t) LeafSpineTopo.LAYER_HOST
    = Ok hosts /\
    length spines = 3%nat /\ length leaves = 6%nat /\
    length hosts = 6%nat /\
    Forall (fun l => exists ups downs,
      StructuredTopo.up_edges (LeafSpineTopo.base t) l = Ok ups /\
      StructuredTopo.down_edges (LeafSpineTopo.base t) l = Ok downs /\
      length ups = 3%nat /\ length downs = 1%nat) leaves.
Proof.
  split.
  - intros k speed. destruct (init_wf k speed) as (t & E & _). eauto.
  - destruct (LeafSpineTopo.init 3 1%Q) as [t|e] eqn:E;
      [|vm_compute in E; discriminate].
    exists t. do 3 eexists.
    split; [reflexivity|]. split; [via E|]. split; [via E|]. split; [via E|].
    do 3 (split; [reflexivity|]).
    each ltac:(do 2 eexists; split; [via E|]; split; [via E|];
               split; reflexivity).
Qed.

(** * Further properties of the identifiers *)

(** ** Decoding arbitrary handles *)

Lemma byte_hi d :
  Z.shiftr (Z.land d 0xff00) 8 = (d / 256) mod 256.
Proof.
  rewrite Z.shiftr_land.
  change (Z.shiftr 0xff00 8) with (Z.ones 8).
  rewrite Z.land_ones, Z.shiftr_div_pow2 by lia. reflexivity.
Qed.

Lemma byte_lo d : Z.land d 0xff = d mod 256.
Proof. change 0xff with (Z.ones 8). now rewrite Z.land_ones by lia. Qed.

Lemma bytes_recombine d :
  Z.shiftl ((d / 256) mod 256) 8 + d mod 256 = d mod 65536.
Proof.
  rewrite Z.shiftl_mul_pow2 by lia. change (2 ^ 8) with 256.
  change 65536 with (256 * 256).
  rewrite (Z.rem_mul_r d 256 256) by lia. lia.
Qed.

Lemma init_dpid_value sw host d name :
  d <> 0 ->
  LeafSpineNodeID.init sw host (Some d) name
  = Ok (LeafSpineNodeID.mk ((d / 256) mod 256) (d mod 256) d).
Proof.
  intros Hd. unfold LeafSpineNodeID.init, truthy_int.
  destruct (Z.eqb_spec d 0) as [E|_]; [contradiction|].
  now rewrite byte_hi, byte_lo.
Qed.

(** Decoding any integer handle returns fields within [0, 255]: they are
    bits 8-15 and 0-7 of the handle, so packing them again gives the handle
    modulo [2^16]; the handle itself is stored unchanged. *)
Theorem decode_low_bits (d : Z) :
  exists id,
    LeafSpineNodeID.init 0 0 (Some d) None = Ok id /\
    0 <= LeafSpineNodeID.sw id <= 255 /\
    0 <= LeafSpineNodeID.host id <= 255 /\
    Z.shiftl (LeafSpineNodeID.sw id) 8 + LeafSpineNodeID.host id
    = d mod 65536 /\
    LeafSpineNodeID.dpid id = d.
Proof.
  destruct (Z.eq_dec d 0) as [->|Hd].
  - eexists. split; [reflexivity|]. cbn. repeat split; lia.
  - eexists. rewrite (init_dpid_value 0 0 d None Hd). split; [reflexivity|].
    cbn [LeafSpineNodeID.sw LeafSpineNodeID.host LeafSpineNodeID.dpid].
    pose proof (Z.mod_pos_bound (d / 256) 256 ltac:(lia)).
    pose proof (Z.mod_pos_bound d 256 ltac:(lia)).
    rewrite bytes_recombine. repeat split; lia.
Qed.

(** A handle that fits 16 bits survives decoding and packing again: the
    identifier built from the decoded fields is the decoded identifier. *)
Theorem decode_encode (d : Z) :
  0 <= d <= 65535 ->
  exists id,
    LeafSpineNodeID.init 0 0 (Some d) None = Ok id /\
    LeafSpineNodeID.init (LeafSpineNodeID.sw id) (LeafSpineNodeID.host id)
      None None = Ok id /\
    LeafSpineNodeID.dpid id = d.
Proof.
  intros Hd. destruct (decode_low_bits d) as (id & E & _ & _ & Hp & Hdp).
  exists id. split; [exact E|]. split; [|exact Hdp].
  rewrite init_fields. rewrite Hp, Z.mod_small by lia.
  destruct id as [s h dp]. cbn in *. now subst.
Qed.

Lemma decode_encode_witness :
  exists id,
    LeafSpineNodeID.init 0 0 (Some 517) None = Ok id /\
    LeafSpineNodeID.init (LeafSpineNodeID.sw id) (LeafSpineNodeID.host id)
      None None = Ok id /\
    LeafSpineNodeID.dpid id = 517.
Proof. apply (decode_encode 517). lia. Defined.

(** Packing is injective on in-range fields: two identifiers built from
    in-range fields that share a handle are the same identifier. *)
Theorem encode_injective (sw1 host1 sw2 host2 : Z) (id1 id2 : LeafSpineNodeID.t) :
  0 <= sw1 <= 255 -> 0 <= host1 <= 255 ->
  0 <= sw2 <= 255 -> 0 <= host2 <= 255 ->
  LeafSpineNodeID.init sw1 host1 None None = Ok id1 ->
  LeafSpineNodeID.init sw2 host2 None None = Ok id2 ->
  LeafSpineNodeID.dpid id1 = LeafSpineNodeID.dpid id2 ->
  sw1 = sw2 /\ host1 = host2 /\ id1 = id2.
Proof.
  intros H1 H2 H3 H4. rewrite !init_fields. intros [= <-] [= <-].
  cbn [LeafSpineNodeID.dpid]. intros E.
  assert (Ha : Z.shiftr (Z.land (Z.shiftl sw1 8 + host1) 0xff00) 8 = sw1)
    by (apply lane_hi; assumption).
  assert (Hb : Z.land (Z.shiftl sw1 8 + host1) 0xff = host1)
    by (apply lane_lo; assumption).
  rewrite E in Ha, Hb.
  rewrite lane_hi in Ha by assumption.
  rewrite lane_lo in Hb by assumption.
  subst. repeat split.
Qed.

Lemma encode_injective_witness :
  3 = 3 /\ 200 = 200 /\
  LeafSpineNodeID.mk 3 200 968 = LeafSpineNodeID.mk 3 200 968.
Proof.
  apply (encode_injective 3 200 3 200); try lia; reflexivity.
Defined.

(** The base-class address always has octets within [0, 255], taken from the
    low 16 bits of the handle, whatever the handle is. *)
Theorem base_ip_octets (d : Z) :
  exists hi lo,
    NodeID.ip_str (NodeID.init (Some d))
    = Ok ("10.0." +:+ fmt_i hi +:+ "." +:+ fmt_i lo) /\
    0 <= hi <= 255 /\ 0 <= lo <= 255 /\
    hi * 256 + lo = d mod 65536.
Proof.
  exists ((d / 256) mod 256), (d mod 256).
  unfold NodeID.ip_str, NodeID.init. cbn [NodeID.dpid].
  rewrite byte_hi, byte_lo. split; [reflexivity|].
  pose proof (Z.mod_pos_bound (d / 256) 256 ltac:(lia)).
  pose proof (Z.mod_pos_bound d 256 ltac:(lia)).
  pose proof (bytes_recombine d) as Hr.
  rewrite Z.shiftl_mul_pow2 in Hr by lia. change (2 ^ 8) with 256 in Hr.
  repeat split; lia.
Qed.

(** ** Names *)

Lemma name_of_parse sw idx :
  LeafSpineNodeID.init 0 0 None (Some (name_of sw idx)) = Ok (node_id sw idx).
Proof. apply init_name_str. Qed.

(** Names are unique: identifiers built from different fields, of any size
    and sign, have different names. *)
Theorem name_str_injective (sw1 host1 sw2 host2 : Z)
    (id1 id2 : LeafSpineNodeID.t) :
  LeafSpineNodeID.init sw1 host1 None None = Ok id1 ->
  LeafSpineNodeID.init sw2 host2 None None = Ok id2 ->
  LeafSpineNodeID.name_str id1 = LeafSpineNodeID.name_str id2 ->
  sw1 = sw2 /\ host1 = host2 /\ id1 = id2.
Proof.
  rewrite !init_fields. intros [= <-] [= <-] E.
  pose proof (init_name_str sw1 host1) as P1.
  pose proof (init_name_str sw2 host2) as P2.
  rewrite E, P2 in P1. injection P1 as -> ->. repeat split.
Qed.

Lemma name_str_injective_witness :
  1 = 1 /\ 12 = 12 /\
  LeafSpineNodeID.mk 1 12 268 = LeafSpineNodeID.mk 1 12 268.
Proof. apply (name_str_injective 1 12 1 12); reflexivity. Defined.

Lemma name_of_inj sw1 i1 sw2 i2 :
  name_of sw1 i1 = name_of sw2 i2 -> sw1 = sw2 /\ i1 = i2.
Proof.
  intros E. pose proof (name_of_parse sw1 i1) as P1.
  rewrite E, name_of_parse in P1. injection P1 as -> ->. split; reflexivity.
Qed.

Lemma split_length sep s :
  length (split sep s) = S (count_char sep s).
Proof.
  induction s as [|c s IH]; [reflexivity|]. cbn [split count_char].
  destruct (Ascii.eqb c sep).
  - cbn [length]. now rewrite IH.
  - destruct (split sep s) as [|w ws]; [discriminate|].
    cbn [length] in *. lia.
Qed.

Lemma int_raises s e : Py.int s = Raise e -> e = invalid_literal.
Proof.
  assert (Hd : forall t e', digits_value t = Raise e' -> e' = invalid_literal).
  { intros t e'. unfold digits_value.
    destruct (DecimalString.NilZero.uint_of_string t); [discriminate|]. now intros [= <-]. }
  unfold Py.int.
  destruct (rstrip (lstrip s)) as [|c ds] eqn:E; [apply Hd|].
  destruct c as [[] [] [] [] [] [] [] []]; try apply Hd.
  destruct (digits_value ds) eqn:E'; cbn [bind]; [discriminate|].
  intros [= <-]. now apply (Hd ds).
Qed.

Lemma mapM_int_length xs vs :
  mapM Py.int xs = Ok vs -> length vs = length xs.
Proof.
  revert vs. induction xs as [|x xs IH]; intros vs; cbn [mapM].
  - now intros [= <-].
  - destruct (Py.int x); cbn [bind]; [|discriminate].
    destruct (mapM Py.int xs); cbn [bind]; [|discriminate].
    intros [= <-]. cbn [length]. now rewrite (IH _ eq_refl).
Qed.

Lemma mapM_int_raises xs e :
  mapM Py.int xs = Raise e -> e = invalid_literal.
Proof.
  induction xs as [|x xs IH]; cbn [mapM]; [discriminate|].
  destruct (Py.int x) eqn:E; cbn [bind].
  - destruct (mapM Py.int xs); cbn [bind]; [discriminate|].
    intros [= <-]. now apply IH.
  - intros [= <-]. now apply (int_raises x).
Qed.

(** A non-empty name that does not hold exactly one underscore is refused:
    construction from it fails with a [ValueError], whatever the fields
    passed along. *)
Theorem name_needs_one_underscore (sw host : Z) (name : string) :
  name <> "" -> count_char "_" name <> 1%nat ->
  exists msg,
    LeafSpineNodeID.init sw host None (Some name) = Raise (ValueError msg).
Proof.
  intros Hne Hcount. unfold LeafSpineNodeID.init. cbn [truthy_int].
  destruct name as [|c name']; [congruence|]. cbn [truthy_str].
  set (name := String c name') in *.
  pose proof (split_length "_" name) as Hlen.
  unfold mbind, result_bind.
  destruct (mapM Py.int (split "_" name)) as [vs|e] eqn:E; cbn [bind].
  - apply mapM_int_length in E. rewrite Hlen in E.
    destruct vs as [|v1 [|v2 [|v3 vs]]]; cbn [length] in E; eauto.
    exfalso. apply Hcount. lia.
  - apply mapM_int_raises in E. subst e. unfold invalid_literal. eauto.
Qed.

Lemma name_needs_one_underscore_witness :
  exists msg,
    LeafSpineNodeID.init 0 0 None (Some "1_2_3") = Raise (ValueError msg).
Proof.
  apply (name_needs_one_underscore 0 0 "1_2_3"); [discriminate|].
  vm_compute. lia.
Defined.

(** * Further properties of the built graphs *)

Lemma elem_of_range lo hi x : x ∈ range lo hi <-> lo <= x < hi.
Proof.
  unfold range. rewrite list_elem_of_In, in_map_iff. split.
  - intros (i & <- & Hi%in_seq). lia.
  - intros Hx. exists (Z.to_nat (x - lo)). split; [lia|].
    apply in_seq. lia.
Qed.

Lemma length_range lo hi : length (range lo hi) = Z.to_nat (hi - lo).
Proof. unfold range. now rewrite length_map, length_seq. Qed.

(** A loop whose every iteration adds to the content of the state adds, in
    the end, what its iterations add. *)
Lemma for_accum {A S T} (P : S -> Prop) (V : S -> T -> Prop)
    (New : A -> T -> Prop) (xs : list A) (body : A -> S -> result S) :
  (forall x s, x ∈ xs -> P s ->
     exists s', body x s = Ok s' /\ P s' /\
       forall t, V s' t <-> V s t \/ New x t) ->
  forall s, P s ->
    exists s', for_ xs body s = Ok s' /\ P s' /\
      forall t, V s' t <-> V s t \/ exists x, x ∈ xs /\ New x t.
Proof.
  induction xs as [|x xs IH]; intros Hbody s Hs; cbn [for_].
  - exists s. split; [reflexivity|]. split; [assumption|].
    intros t. split; [auto|]. intros [H|(x & Hx & _)]; [assumption|].
    now apply elem_of_nil in Hx.
  - destruct (Hbody x s) as (s1 & E1 & H1 & V1); [left | assumption |].
    rewrite E1. cbn [bind].
    destruct (IH (fun y s2 Hy => Hbody y s2 (list_elem_of_further _ _ _ Hy))
                s1 H1) as (s2 & E2 & H2 & V2).
    exists s2. split; [assumption|]. split; [assumption|].
    intros t. rewrite V2, V1. split.
    + intros [[H|H]|(y & Hy & H)]; [auto| |].
      * right. exists x. split; [left|assumption].
      * right. exists y. split; [now right|assumption].
    + intros [H|(y & [->|Hy]%elem_of_cons & H)]; [auto|auto|].
      right. eauto.
Qed.

Section Content.

Implicit Types (tp : Topo.t) (sp : list string) (t : item).

Lemma view_addNode name opts tp sp t :
  view (Topo.addNode name opts tp) sp t <-> view tp sp t \/ vertex name t.
Proof.
  destruct t as [a|a b|s]; cbn [view vertex].
  - rewrite dom_addNode. set_solver.
  - unfold adj, Topo.addNode. cbn [Topo.g]. rewrite nbrs_add_node. tauto.
  - tauto.
Qed.

Lemma view_addLink a b o tp sp t :
  view (Topo.addLink a b o tp) sp t <-> view tp sp t \/ link a b t.
Proof.
  destruct t as [x|x y|s]; cbn [view link].
  - rewrite dom_addLink. set_solver.
  - apply adj_addLink.
  - tauto.
Qed.

Lemma nodup_add_neighbor gr a b x :
  NoDup (nbrs gr x) -> NoDup (nbrs (Topo.g_add_neighbor a b gr) x).
Proof.
  intros Hnd. unfold Topo.g_add_neighbor, nbrs in *.
  destruct (decide (a = x)) as [->|Hne].
  - rewrite lookup_insert_eq. cbn [default]. unfold id.
    case_decide as Hin; [assumption|].
    apply NoDup_app. split; [assumption|]. split.
    + intros y Hy ->%list_elem_of_singleton. contradiction.
    + apply NoDup_singleton.
  - now rewrite lookup_insert_ne.
Qed.

Lemma adj_nodup_addNode name opts tp :
  adj_nodup tp -> adj_nodup (Topo.addNode name opts tp).
Proof.
  intros H a. unfold adj, Topo.addNode. cbn [Topo.g].
  rewrite nbrs_add_node. apply H.
Qed.

Lemma adj_nodup_addLink a b o tp :
  adj_nodup tp -> adj_nodup (Topo.addLink a b o tp).
Proof.
  intros H x. unfold adj, Topo.addLink, Topo.g_add_edge. cbn [Topo.g].
  apply nodup_add_neighbor, nodup_add_neighbor, H.
Qed.

Lemma info_ok_addNode name d tp :
  info_ok tp -> tagged name d -> info_ok (Topo.addNode name d tp).
Proof.
  intros H Hd x dx. unfold Topo.addNode. cbn [Topo.node_info].
  destruct (decide (name = x)) as [->|Hne].
  - rewrite lookup_insert_eq. now intros [= <-].
  - rewrite lookup_insert_ne by assumption. apply H.
Qed.

Lemma info_ok_addLink a b o tp :
  info_ok tp -> info_ok (Topo.addLink a b o tp).
Proof. intros H x dx. apply H. Qed.

End Content.

(** The keywords that [def_nopts] derives from the name of an identifier. *)
Lemma def_nopts_value lay sw idx :
  LeafSpineTopo.def_nopts lay (Some (name_of sw idx))
  = Ok (Topo.mk_node_opts (Some lay) false
          (if lay =? LeafSpineTopo.LAYER_HOST
           then Some (LeafSpineNodeID.ip_str (node_id sw idx)) else None)
          (if lay =? LeafSpineTopo.LAYER_HOST
           then Some (LeafSpineNodeID.mac_str (node_id sw idx)) else None)
          (Some (fmt_0x 16 (LeafSpineNodeID.dpid (node_id sw idx))))).
Proof.
  unfold LeafSpineTopo.def_nopts, LeafSpineTopo.id_gen.
  destruct (name_str_truthy (node_id sw idx)) as (c & s & E).
  unfold name_of. rewrite E. cbn [truthy_str]. rewrite <- E.
  fold (name_of sw idx). rewrite name_of_parse.
  unfold mbind, result_bind. cbn [bind].
  destruct (lay =? LeafSpineTopo.LAYER_HOST); reflexivity.
Qed.

Section Content_of_build.

Variable k : Z.

Lemma tagged_switch sw idx :
  0 <= sw <= 1 ->
  tagged (name_of sw idx)
    (Topo.mk_node_opts (Some sw) true None None
       (Some (fmt_0x 16 (LeafSpineNodeID.dpid (node_id sw idx))))).
Proof.
  intros Hsw. exists sw, idx. split; [reflexivity|]. split; [lia|].
  unfold LeafSpineTopo.LAYER_HOST.
  destruct (Z.eqb_spec sw 2) as [E|_]; [lia|reflexivity].
Qed.

Lemma tagged_host idx :
  tagged (name_of 2 idx)
    (Topo.mk_node_opts (Some 2) false
       (Some (LeafSpineNodeID.ip_str (node_id 2 idx)))
       (Some (LeafSpineNodeID.mac_str (node_id 2 idx)))
       (Some (fmt_0x 16 (LeafSpineNodeID.dpid (node_id 2 idx))))).
Proof. exists 2, idx. split; [reflexivity|]. split; [lia|reflexivity]. Qed.

Lemma spine_step_content s st :
  good (fst st) ->
  exists st', LeafSpineTopo.spine_step s st = Ok st' /\ good (fst st') /\
    forall t, view (fst st') (snd st') t
              <-> view (fst st) (snd st) t \/ new_spine s t.
Proof.
  destruct st as [tp sp]. cbn [fst snd]. intros [Hinfo Hnd].
  unfold LeafSpineTopo.spine_step, LeafSpineTopo.id_gen.
  rewrite init_fields. unfold mbind, result_bind. cbn [bind].
  change (LeafSpineNodeID.name_str (LeafSpineNodeID.mk 0 s (Z.shiftl 0 8 + s)))
    with (name_of 0 s).
  rewrite def_nopts_value. cbn [bind].
  eexists. split; [reflexivity|]. cbn [fst snd]. split; [split|].
  - unfold Topo.addSwitch. apply info_ok_addNode; [assumption|].
    apply (tagged_switch 0 s). lia.
  - unfold Topo.addSwitch. now apply adj_nodup_addNode.
  - intros t. unfold Topo.addSwitch.
    destruct t as [a|a b|x]; cbn [view new_spine].
    + rewrite dom_addNode. set_solver.
    + unfold adj, Topo.addNode. cbn [Topo.g]. rewrite nbrs_add_node. tauto.
    + rewrite elem_of_app, list_elem_of_singleton. tauto.
Qed.

Variable spines : list string.

Lemma host_step_content l h tp :
  good tp ->
  exists tp', LeafSpineTopo.host_step k l (name_of 1 l) h tp = Ok tp' /\
    good tp' /\
    forall t, view tp' spines t <-> view tp spines t \/ new_host k l h t.
Proof.
  intros [Hinfo Hnd].
  unfold LeafSpineTopo.host_step, LeafSpineTopo.id_gen.
  rewrite init_fields. unfold mbind, result_bind. cbn [bind].
  change (LeafSpineNodeID.name_str
            (LeafSpineNodeID.mk 2 (l * (k / 2) + h)
               (Z.shiftl 2 8 + (l * (k / 2) + h))))
    with (name_of 2 (l * (k / 2) + h)).
  rewrite def_nopts_value. cbn [bind].
  eexists. split; [reflexivity|]. split; [split|].
  - apply info_ok_addLink. unfold Topo.addHost.
    apply info_ok_addNode; [assumption|]. apply tagged_host.
  - apply adj_nodup_addLink. unfold Topo.addHost.
    now apply adj_nodup_addNode.
  - intros t. unfold Topo.addHost, new_host.
    rewrite view_addLink, view_addNode. tauto.
Qed.

Lemma uplink_step_content l s tp :
  good tp ->
  exists tp', LeafSpineTopo.uplink_step (name_of 1 l) s tp = Ok tp' /\
    good tp' /\
    forall t, view tp' spines t
              <-> view tp spines t \/ link (name_of 1 l) s t.
Proof.
  intros [Hinfo Hnd]. unfold LeafSpineTopo.uplink_step.
  eexists. split; [reflexivity|]. split; [split|].
  - now apply info_ok_addLink.
  - now apply adj_nodup_addLink.
  - intros t. apply view_addLink.
Qed.

Lemma leaf_step_content l tp :
  good tp ->
  exists tp', LeafSpineTopo.leaf_step k spines l tp = Ok tp' /\ good tp' /\
    forall t, view tp' spines t <-> view tp spines t \/ new_leaf k spines l t.
Proof.
  intros [Hinfo Hnd].
  unfold LeafSpineTopo.leaf_step, LeafSpineTopo.id_gen.
  rewrite init_fields. unfold mbind, result_bind. cbn [bind].
  change (LeafSpineNodeID.name_str (LeafSpineNodeID.mk 1 l (Z.shiftl 1 8 + l)))
    with (name_of 1 l).
  rewrite def_nopts_value. cbn [bind].
  set (d := Topo.mk_node_opts _ _ _ _ _).
  assert (H0 : good (Topo.addSwitch (name_of 1 l) d tp)).
  { unfold Topo.addSwitch. split.
    - apply info_ok_addNode; [assumption|]. apply (tagged_switch 1 l). lia.
    - now apply adj_nodup_addNode. }
  destruct (for_accum good (fun tp' => view tp' spines) (new_host k l)
              (range 0 (k / 2))
              (LeafSpineTopo.host_step k l (name_of 1 l)))
    with (s := Topo.addSwitch (name_of 1 l) d tp) as (tp1 & E1 & H1 & V1);
    [intros h t _; apply host_step_content | exact H0 |].
  rewrite E1. cbn [bind].
  destruct (for_accum good (fun tp' => view tp' spines)
              (fun s => link (name_of 1 l) s) spines
              (LeafSpineTopo.uplink_step (name_of 1 l)))
    with (s := tp1) as (tp2 & E2 & H2 & V2);
    [intros s t _; apply uplink_step_content | exact H1 |].
  exists tp2. split; [exact E2|]. split; [exact H2|].
  intros t. rewrite V2, V1. unfold Topo.addSwitch, new_leaf.
  rewrite view_addNode. tauto.
Qed.

End Content_of_build.

(** The content of the graph that the constructor returns. *)
Lemma init_content k speed :
  exists t spines,
    LeafSpineTopo.init k speed = Ok t /\
    good (StructuredTopo.topo (LeafSpineTopo.base t)) /\
    (forall x, x ∈ spines <-> exists s, s ∈ range 0 k /\ x = name_of 0 s) /\
    forall it, view (StructuredTopo.topo (LeafSpineTopo.base t)) spines it
      <-> (exists s, s ∈ range 0 k /\ new_spine s it) \/
          (exists l, l ∈ range 0 (k * 2) /\ new_leaf k spines l it).
Proof.
  unfold LeafSpineTopo.init. cbn [StructuredTopo.init StructuredTopo.topo].
  assert (G0 : good Topo.init).
  { split.
    - intros x d H. cbn in H. now rewrite lookup_empty in H.
    - intros a. unfold adj, nbrs, Topo.init. cbn [Topo.g].
      rewrite lookup_empty. apply NoDup_nil_2. }
  destruct (for_accum (fun st => good (fst st))
              (fun st => view (fst st) (snd st)) new_spine
              (range 0 k) LeafSpineTopo.spine_step)
    with (s := (Topo.init, @nil string)) as ([tp sp] & E1 & H1 & V1).
  { intros s st _. apply spine_step_content. }
  { exact G0. }
  unfold mbind, result_bind. rewrite E1. cbn [bind fst snd] in *.
  destruct (for_accum good (fun tp' => view tp' sp) (new_leaf k sp)
              (range 0 (k * 2)) (LeafSpineTopo.leaf_step k sp))
    with (s := tp) as (tp2 & E2 & H2 & V2).
  { intros l t _. apply leaf_step_content. }
  { exact H1. }
  rewrite E2. cbn [bind]. eexists. exists sp. split; [reflexivity|].
  cbn [LeafSpineTopo.base StructuredTopo.topo].
  assert (V0 : forall it, view Topo.init [] it <-> False).
  { intros [a|a b|x]; cbn [view].
    - unfold Topo.init. cbn [Topo.g]. set_solver.
    - unfold adj, nbrs, Topo.init. cbn [Topo.g]. rewrite lookup_empty.
      cbn. apply elem_of_nil.
    - apply elem_of_nil. }
  split; [exact H2|]. split.
  - intros x. specialize (V1 (Spine x)). cbn [view] in V1.
    rewrite V1, elem_of_nil. cbn [new_spine]. tauto.
  - intros it. rewrite V2, V1, V0. tauto.
Qed.

Lemma init_facts k speed :
  exists t spines,
    LeafSpineTopo.init k speed = Ok t /\
    wf (StructuredTopo.topo (LeafSpineTopo.base t)) /\
    good (StructuredTopo.topo (LeafSpineTopo.base t)) /\
    (forall x, x ∈ spines <-> exists s, s ∈ range 0 k /\ x = name_of 0 s) /\
    forall it, view (StructuredTopo.topo (LeafSpineTopo.base t)) spines it
      <-> (exists s, s ∈ range 0 k /\ new_spine s it) \/
          (exists l, l ∈ range 0 (k * 2) /\ new_leaf k spines l it).
Proof.
  destruct (init_wf k speed) as (t & E & Hwf).
  destruct (init_content k speed) as (t' & sp & E' & Hgood & Hsp & Hview).
  assert (t' = t) as -> by congruence.
  exists t, sp. auto.
Qed.

Section Built.

Variables (k : Z) (t : LeafSpineTopo.t) (spines : list string).

Abbreviation self := (LeafSpineTopo.base t).
Abbreviation tp := (StructuredTopo.topo (LeafSpineTopo.base t)).

Hypothesis Hwf : wf tp.
Hypothesis Hgood : good tp.
Hypothesis Hsp :
  forall x, x ∈ spines <-> exists s, s ∈ range 0 k /\ x = name_of 0 s.
Hypothesis Hview :
  forall it, view tp spines it
    <-> (exists s, s ∈ range 0 k /\ new_spine s it) \/
        (exists l, l ∈ range 0 (k * 2) /\ new_leaf k spines l it).

Lemma vertex_tagged a :
  a ∈ dom (Topo.g tp) ->
  exists d, Topo.node_info tp !! a = Some d /\ tagged a d.
Proof.
  intros Ha. destruct (wf_layer _ Hwf a Ha) as (d & l & Hd & _).
  exists d. split; [assumption|]. now apply (proj1 Hgood).
Qed.

Lemma layer_of_name sw idx :
  name_of sw idx ∈ dom (Topo.g tp) ->
  StructuredTopo.layer self (name_of sw idx) = Ok sw.
Proof.
  intros Ha. destruct (vertex_tagged _ Ha) as (d & Hd & sw' & idx' & E & _ & ->).
  apply name_of_inj in E as [-> ->].
  unfold StructuredTopo.layer. now rewrite Hd.
Qed.

Lemma vertex_layer_range a :
  a ∈ dom (Topo.g tp) ->
  exists l, StructuredTopo.layer self a = Ok l /\ 0 <= l <= 2.
Proof.
  intros Ha. destruct (vertex_tagged _ Ha) as (d & Hd & sw & idx & -> & Hr & ->).
  exists sw. split; [|assumption].
  unfold StructuredTopo.layer. now rewrite Hd.
Qed.

Lemma dom_built a :
  a ∈ dom (Topo.g tp) <->
  (exists s, 0 <= s < k /\ a = name_of 0 s) \/
  (exists l, 0 <= l < k * 2 /\ a = name_of 1 l) \/
  (exists l h, 0 <= l < k * 2 /\ 0 <= h < k / 2 /\
     a = name_of 2 (l * (k / 2) + h)).
Proof.
  change (a ∈ dom (Topo.g tp)) with (view tp spines (Vertex a)).
  rewrite Hview. split.
  - intros [(s & Hs%elem_of_range & E)|(l & Hl%elem_of_range & H)].
    + left. eauto.
    + destruct H as [E|[(h & Hh%elem_of_range & [E|[E|E]])|(s & Hs & [E|E])]];
        cbn in E; subst.
      * right. left. eauto.
      * right. right. exists l, h. auto.
      * right. right. exists l, h. auto.
      * right. left. eauto.
      * right. left. eauto.
      * apply Hsp in Hs as (i & Hi%elem_of_range & ->). left. eauto.
  - intros [(s & Hs & ->)|[(l & Hl & ->)|(l & h & Hl & Hh & ->)]].
    + left. exists s. split; [now apply elem_of_range|reflexivity].
    + right. exists l. split; [now apply elem_of_range|]. now left.
    + right. exists l. split; [now apply elem_of_range|]. right. left.
      exists h. split; [now apply elem_of_range|]. now left.
Qed.

Lemma adj_built a b :
  b ∈ adj tp a <->
  exists l, 0 <= l < k * 2 /\
    ((a = name_of 1 l /\ target k l b) \/ (b = name_of 1 l /\ target k l a)).
Proof.
  change (b ∈ adj tp a) with (view tp spines (Edge a b)).
  rewrite Hview. split.
  - intros [(s & _ & [])|(l & Hl%elem_of_range & H)].
    exists l. split; [assumption|].
    destruct H as [[]|[(h & Hh%elem_of_range & [[]|[[-> ->]|[-> ->]]])
                      |(s & Hs & [[-> ->]|[-> ->]])]].
    + right. split; [reflexivity|]. right. eauto.
    + left. split; [reflexivity|]. right. eauto.
    + apply Hsp in Hs as (i & Hi%elem_of_range & ->).
      left. split; [reflexivity|]. left. eauto.
    + apply Hsp in Hs as (i & Hi%elem_of_range & ->).
      right. split; [reflexivity|]. left. eauto.
  - intros (l & Hl & H). right. exists l.
    split; [now apply elem_of_range|].
    destruct H as [[-> [(s & Hs & ->)|(h & Hh & ->)]]
                  |[-> [(s & Hs & ->)|(h & Hh & ->)]]].
    + right. right. exists (name_of 0 s). split.
      * apply Hsp. exists s. split; [now apply elem_of_range|reflexivity].
      * cbn. auto.
    + right. left. exists h. split; [now apply elem_of_range|].
      right. cbn. auto.
    + right. right. exists (name_of 0 s). split.
      * apply Hsp. exists s. split; [now apply elem_of_range|reflexivity].
      * cbn. auto.
    + right. left. exists h. split; [now apply elem_of_range|].
      right. cbn. auto.
Qed.

End Built.

Lemma filterM_sublist {A} (p : A -> result bool) (xs ys : list A) :
  filterM p xs = Ok ys -> sublist ys xs.
Proof.
  revert ys. induction xs as [|x xs IH]; intros ys; cbn [filterM].
  - intros [= <-]. constructor.
  - destruct (p x) as [b|]; cbn [bind]; [|discriminate].
    destruct (filterM p xs) as [zs|]; cbn [bind]; [|discriminate].
    intros [= <-]. destruct b; constructor; now apply IH.
Qed.

Lemma filterM_nodup {A} (p : A -> result bool) (xs ys : list A) :
  NoDup xs -> filterM p xs = Ok ys -> NoDup ys.
Proof.
  intros Hnd H%filterM_sublist. eapply sublist_NoDup; eassumption.
Qed.

Lemma no_elements {A} (l : list A) : (forall x, x ∉ l) -> l = [].
Proof. destruct l as [|x l]; [reflexivity|]. intros H. now destruct (H x); left. Qed.

Lemma only_element {A} (l : list A) (a : A) :
  NoDup l -> (forall x, x ∈ l <-> x = a) -> l = [a].
Proof.
  intros Hnd H. apply Permutation_length_1_inv. symmetry.
  apply NoDup_Permutation; [assumption|apply NoDup_singleton|].
  intros x. now rewrite H, list_elem_of_singleton.
Qed.

Lemma NoDup_range lo hi : NoDup (range lo hi).
Proof.
  unfold range.
  change (NoDup ((fun i => lo + Z.of_nat i) <$> seq 0 (Z.to_nat (hi - lo)))).
  apply NoDup_fmap_2; [|apply NoDup_seq].
  intros i j H. lia.
Qed.

#[local] Instance name_of_inj_idx sw : Inj (=) (=) (name_of sw).
Proof. intros i j H. now apply name_of_inj in H. Qed.

Lemma elem_of_names sw lo hi x :
  x ∈ name_of sw <$> range lo hi <-> exists i, lo <= i < hi /\ x = name_of sw i.
Proof.
  rewrite list_elem_of_fmap. split.
  - intros (i & -> & Hi%elem_of_range). eauto.
  - intros (i & Hi & ->). exists i. split; [reflexivity|].
    now apply elem_of_range.
Qed.

Lemma NoDup_names sw lo hi : NoDup (name_of sw <$> range lo hi).
Proof. apply NoDup_fmap_2; [apply _|apply NoDup_range]. Qed.

(** In the graph built for any [k], the keywords of every vertex are the
    ones derived from its name: parsing the name gives an identifier of
    layer 0, 1 or 2 whose name is the vertex; the vertex carries that layer
    and the handle's 16-digit hexadecimal dpid; exactly the vertices of the
    host layer carry an address and a hardware address, and exactly the
    others are marked as switches. *)
Theorem vertex_metadata (k : Z) (speed : Q) :
  exists t,
    LeafSpineTopo.init k speed = Ok t /\
    forall name d,
      Topo.node_info (StructuredTopo.topo (LeafSpineTopo.base t)) !! name
      = Some d ->
      exists id,
        LeafSpineNodeID.init 0 0 None (Some name) = Ok id /\
        LeafSpineNodeID.name_str id = name /\
        0 <= LeafSpineNodeID.sw id <= 2 /\
        Topo.layer d = Some (LeafSpineNodeID.sw id) /\
        Topo.isSwitch d
        = negb (LeafSpineNodeID.sw id =? LeafSpineTopo.LAYER_HOST) /\
        Topo.dpid d = Some (fmt_0x 16 (LeafSpineNodeID.dpid id)) /\
        Topo.ip d
        = (if LeafSpineNodeID.sw id =? LeafSpineTopo.LAYER_HOST
           then Some (LeafSpineNodeID.ip_str id) else None) /\
        Topo.mac d
        = (if LeafSpineNodeID.sw id =? LeafSpineTopo.LAYER_HOST
           then Some (LeafSpineNodeID.mac_str id) else None).
Proof.
  destruct (init_facts k speed) as (t & sp & E & Hwf & [Hinfo _] & _).
  exists t. split; [exact E|]. intros name d Hd.
  destruct (Hinfo name d Hd) as (sw & idx & -> & Hsw & ->).
  exists (node_id sw idx). rewrite name_of_parse.
  cbn [node_id LeafSpineNodeID.sw Topo.layer Topo.isSwitch Topo.dpid Topo.ip
       Topo.mac].
  repeat split; try reflexivity; lia.
Qed.

Section Layers.

Variables (k : Z) (t : LeafSpineTopo.t).

Abbreviation self := (LeafSpineTopo.base t).
Abbreviation tp := (StructuredTopo.topo (LeafSpineTopo.base t)).

Hypothesis Hwf : wf tp.
Hypothesis Hgood : good tp.

Lemma layer_nodes_spec i :
  exists li, StructuredTopo.layer_nodes self i = Ok li /\ NoDup li /\
    forall x, x ∈ li
      <-> x ∈ dom (Topo.g tp) /\ StructuredTopo.layer self x = Ok i.
Proof.
  unfold StructuredTopo.layer_nodes.
  destruct (filterM_spec (StructuredTopo.is_layer self i) (Topo.nodes tp))
    as (li & E & Hli).
  { intros x Hx%elem_of_nodes.
    destruct (layer_defined self Hwf x Hx) as [l Hl].
    unfold StructuredTopo.is_layer. rewrite Hl. cbn. eauto. }
  exists li. split; [exact E|]. split.
  - eapply filterM_nodup; [|exact E]. apply NoDup_fst_map_to_list.
  - intros x. now rewrite Hli, elem_of_nodes, is_layer_true.
Qed.

Lemma layer_nodes_outside i :
  ~ 0 <= i <= 2 -> StructuredTopo.layer_nodes self i = Ok [].
Proof.
  intros Hi. destruct (layer_nodes_spec i) as (li & E & _ & Hli).
  rewrite E. f_equal. apply no_elements. intros x [Hx Hl]%Hli.
  destruct (vertex_layer_range t Hwf Hgood x Hx) as (l & Hl' & Hr).
  rewrite Hl in Hl'. injection Hl' as <-. contradiction.
Qed.

Lemma layers_partition l0 l1 l2 :
  StructuredTopo.layer_nodes self 0 = Ok l0 ->
  StructuredTopo.layer_nodes self 1 = Ok l1 ->
  StructuredTopo.layer_nodes self 2 = Ok l2 ->
  Topo.nodes tp ≡ₚ (l0 ++ l1 ++ l2)%list.
Proof.
  intros E0 E1 E2.
  destruct (layer_nodes_spec 0) as (l0' & E0' & N0 & H0).
  destruct (layer_nodes_spec 1) as (l1' & E1' & N1 & H1).
  destruct (layer_nodes_spec 2) as (l2' & E2' & N2 & H2).
  assert (l0' = l0) as -> by congruence.
  assert (l1' = l1) as -> by congruence.
  assert (l2' = l2) as -> by congruence.
  apply NoDup_Permutation.
  - apply NoDup_fst_map_to_list.
  - apply NoDup_app. split; [assumption|]. split.
    + intros x Hx Hy. apply H0 in Hx as [_ Hx].
      apply elem_of_app in Hy as [Hy|Hy];
        [apply H1 in Hy as [_ Hy] | apply H2 in Hy as [_ Hy]]; congruence.
    + apply NoDup_app. split; [assumption|]. split; [|assumption].
      intros x Hx Hy. apply H1 in Hx as [_ Hx]. apply H2 in Hy as [_ Hy].
      congruence.
  - intros x. rewrite elem_of_nodes, !elem_of_app, H0, H1, H2. split.
    + intros Hx. destruct (vertex_layer_range t Hwf Hgood x Hx) as (l & Hl & Hr).
      assert (Hc : l = 0 \/ l = 1 \/ l = 2) by lia.
      destruct Hc as [-> | [-> | ->]]; auto.
    + intros [[? _]|[[? _]|[? _]]]; assumption.
Qed.

End Layers.

Lemma host_index k i :
  0 <= k ->
  (0 <= i < k * 2 * (k / 2)
   <-> exists l h, 0 <= l < k * 2 /\ 0 <= h < k / 2 /\ i = l * (k / 2) + h).
Proof.
  intros Hk.
  assert (Hm : 0 <= k / 2) by (apply Z.div_pos; lia).
  split.
  - intros Hi.
    assert (Hm' : 0 < k / 2) by nia.
    exists (i / (k / 2)), (i mod (k / 2)).
    pose proof (Z.mod_pos_bound i (k / 2) Hm') as Hb.
    pose proof (Z.div_mod i (k / 2) ltac:(lia)) as Hd.
    split; [split|].
    + apply Z.div_pos; lia.
    + apply Z.div_lt_upper_bound; lia.
    + split; [assumption|]. lia.
  - intros (l & h & Hl & Hh & ->). nia.
Qed.

Lemma host_index_unique m l h l' h' :
  0 <= h < m -> 0 <= h' < m -> l * m + h = l' * m + h' -> l = l' /\ h = h'.
Proof. intros Hh Hh' E. assert (l = l') by nia. subst. lia. Qed.

Section Shape.

Variables (k : Z) (t : LeafSpineTopo.t) (spines : list string).

Abbreviation self := (LeafSpineTopo.base t).
Abbreviation tp := (StructuredTopo.topo (LeafSpineTopo.base t)).

Hypothesis Hwf : wf tp.
Hypothesis Hgood : good tp.
Hypothesis Hsp :
  forall x, x ∈ spines <-> exists s, s ∈ range 0 k /\ x = name_of 0 s.
Hypothesis Hview :
  forall it, view tp spines it
    <-> (exists s, s ∈ range 0 k /\ new_spine s it) \/
        (exists l, l ∈ range 0 (k * 2) /\ new_leaf k spines l it).

Lemma spine_in_dom s : 0 <= s < k -> name_of 0 s ∈ dom (Topo.g tp).
Proof. intros Hs. apply (dom_built k t spines Hsp Hview). eauto. Qed.

Lemma leaf_in_dom l : 0 <= l < k * 2 -> name_of 1 l ∈ dom (Topo.g tp).
Proof. intros Hl. apply (dom_built k t spines Hsp Hview). eauto. Qed.

Lemma host_in_dom l h :
  0 <= l < k * 2 -> 0 <= h < k / 2 ->
  name_of 2 (l * (k / 2) + h) ∈ dom (Topo.g tp).
Proof.
  intros Hl Hh. apply (dom_built k t spines Hsp Hview). right. right. eauto.
Qed.

Lemma layer_name sw idx :
  name_of sw idx ∈ dom (Topo.g tp) ->
  StructuredTopo.layer self (name_of sw idx) = Ok sw.
Proof. apply (layer_of_name t Hwf Hgood). Qed.

Lemma in_layer sw x :
  x ∈ dom (Topo.g tp) /\ StructuredTopo.layer self x = Ok sw
  <-> exists idx, x = name_of sw idx /\ x ∈ dom (Topo.g tp).
Proof.
  split.
  - intros [Hx Hl].
    destruct (vertex_tagged t Hwf Hgood x Hx) as (d & Hd & sw' & idx & -> & _ & ->).
    rewrite (layer_name _ _ Hx) in Hl. injection Hl as ->. eauto.
  - intros (idx & -> & Hx). split; [assumption|]. now apply layer_name.
Qed.

Lemma in_layer0 x :
  x ∈ dom (Topo.g tp) /\ StructuredTopo.layer self x = Ok 0
  <-> exists s, 0 <= s < k /\ x = name_of 0 s.
Proof.
  rewrite in_layer. split.
  - intros (idx & -> & Hx).
    apply (dom_built k t spines Hsp Hview) in Hx
      as [(s & Hs & [_ ->]%name_of_inj)
         |[(l & _ & [[=] _]%name_of_inj)
          |(l & h & _ & _ & [[=] _]%name_of_inj)]].
    eauto.
  - intros (s & Hs & ->). exists s. split; [reflexivity|].
    now apply spine_in_dom.
Qed.

Lemma in_layer1 x :
  x ∈ dom (Topo.g tp) /\ StructuredTopo.layer self x = Ok 1
  <-> exists l, 0 <= l < k * 2 /\ x = name_of 1 l.
Proof.
  rewrite in_layer. split.
  - intros (idx & -> & Hx).
    apply (dom_built k t spines Hsp Hview) in Hx
      as [(s & _ & [[=] _]%name_of_inj)
         |[(l & Hl & [_ ->]%name_of_inj)
          |(l & h & _ & _ & [[=] _]%name_of_inj)]].
    eauto.
  - intros (l & Hl & ->). exists l. split; [reflexivity|].
    now apply leaf_in_dom.
Qed.

Lemma in_layer2 x :
  x ∈ dom (Topo.g tp) /\ StructuredTopo.layer self x = Ok 2
  <-> exists l h, 0 <= l < k * 2 /\ 0 <= h < k / 2 /\
        x = name_of 2 (l * (k / 2) + h).
Proof.
  rewrite in_layer. split.
  - intros (idx & -> & Hx).
    apply (dom_built k t spines Hsp Hview) in Hx
      as [(s & _ & [[=] _]%name_of_inj)
         |[(l & _ & [[=] _]%name_of_inj)
          |(l & h & Hl & Hh & [_ ->]%name_of_inj)]].
    eauto.
  - intros (l & h & Hl & Hh & ->). eexists. split; [reflexivity|].
    now apply host_in_dom.
Qed.

(** The neighbours of a leaf, of a host and of a spine. *)
Lemma adj_leaf l b :
  0 <= l < k * 2 -> (b ∈ adj tp (name_of 1 l) <-> target k l b).
Proof.
  intros Hl. rewrite (adj_built k t spines Hsp Hview). split.
  - intros (l' & Hl' & [[[_ ->]%name_of_inj Hb]|[-> Ht]]); [assumption|].
    destruct Ht as [(s & _ & [[=] _]%name_of_inj)
                   |(h & _ & [[=] _]%name_of_inj)].
  - intros Hb. exists l. auto.
Qed.

Lemma adj_host l h b :
  0 <= l < k * 2 -> 0 <= h < k / 2 ->
  (b ∈ adj tp (name_of 2 (l * (k / 2) + h)) <-> b = name_of 1 l).
Proof.
  intros Hl Hh. rewrite (adj_built k t spines Hsp Hview). split.
  - intros (l' & Hl' & [[[[=] _]%name_of_inj _]|[-> Ht]]).
    destruct Ht as [(s & _ & [[=] _]%name_of_inj)
                   |(h' & Hh' & [_ E]%name_of_inj)].
    apply host_index_unique in E as [-> _]; [reflexivity|assumption..].
  - intros ->. exists l. split; [assumption|]. right.
    split; [reflexivity|]. right. eauto.
Qed.

Lemma adj_spine s b :
  0 <= s < k ->
  (b ∈ adj tp (name_of 0 s) <-> exists l, 0 <= l < k * 2 /\ b = name_of 1 l).
Proof.
  intros Hs. rewrite (adj_built k t spines Hsp Hview). split.
  - intros (l' & Hl' & [[[[=] _]%name_of_inj _]|[-> _]]). eauto.
  - intros (l & Hl & ->). exists l. split; [assumption|]. right.
    split; [reflexivity|]. left. eauto.
Qed.

(** Every neighbour of a vertex lies one layer above or one layer below. *)
Lemma neighbour_layers a b :
  b ∈ adj tp a ->
  exists la,
    StructuredTopo.layer self a = Ok la /\
    (StructuredTopo.layer self b = Ok (la - 1) \/
     StructuredTopo.layer self b = Ok (la + 1)).
Proof.
  intros Hab.
  pose proof (nbrs_in_dom _ _ _ Hab) as Ha.
  pose proof (adj_closed _ _ _ Hwf Hab) as Hb.
  apply (adj_built k t spines Hsp Hview) in Hab
    as (l & Hl & [[-> Ht]|[-> Ht]]);
    destruct Ht as [(s & Hs & ->)|(h & Hh & ->)].
  - exists 1. rewrite !layer_name by assumption. auto.
  - exists 1. rewrite !layer_name by assumption. auto.
  - exists 0. rewrite !layer_name by assumption. auto.
  - exists 2. rewrite !layer_name by assumption. auto.
Qed.

Lemma neighbours_split a ns :
  Topo.neighbors tp a = Ok ns ->
  exists ups downs,
    StructuredTopo.up_nodes self a = Ok ups /\
    StructuredTopo.down_nodes self a = Ok downs /\
    ns ≡ₚ (ups ++ downs)%list.
Proof.
  intros Hns.
  assert (Ha : a ∈ dom (Topo.g tp)).
  { unfold Topo.neighbors in Hns. apply elem_of_dom.
    destruct (Topo.g tp !! a); [eauto|discriminate]. }
  rewrite (neighbors_adj self a Ha) in Hns. injection Hns as <-.
  destruct (layer_defined self Hwf a Ha) as [la Hla].
  destruct (up_nodes_spec self Hwf a la Hla Ha) as (ups & Eu & Hu).
  destruct (down_nodes_spec self Hwf a la Hla Ha) as (downs & Ed & Hd).
  exists ups, downs. split; [assumption|]. split; [assumption|].
  assert (Nu : NoDup ups).
  { revert Eu. unfold StructuredTopo.up_nodes.
    rewrite Hla, (neighbors_adj self a Ha). cbn.
    apply filterM_nodup, (proj2 Hgood). }
  assert (Nd : NoDup downs).
  { revert Ed. unfold StructuredTopo.down_nodes.
    rewrite Hla, (neighbors_adj self a Ha). cbn.
    apply filterM_nodup, (proj2 Hgood). }
  apply NoDup_Permutation.
  - apply (proj2 Hgood).
  - apply NoDup_app. split; [assumption|]. split; [|assumption].
    intros x Hx Hy. apply Hu in Hx as [_ Hx]. apply Hd in Hy as [_ Hy].
    rewrite Hx in Hy. injection Hy. lia.
  - intros b. rewrite elem_of_app, Hu, Hd. split.
    + intros Hb. destruct (neighbour_layers a b Hb) as (la' & Hla' & H).
      assert (la' = la) as -> by congruence. tauto.
    + intros [[? _]|[? _]]; assumption.
Qed.

End Shape.

Section Degrees.

Variables (k : Z) (t : LeafSpineTopo.t) (spines : list string).

Abbreviation self := (LeafSpineTopo.base t).
Abbreviation tp := (StructuredTopo.topo (LeafSpineTopo.base t)).

Hypothesis Hwf : wf tp.
Hypothesis Hgood : good tp.
Hypothesis Hsp :
  forall x, x ∈ spines <-> exists s, s ∈ range 0 k /\ x = name_of 0 s.
Hypothesis Hview :
  forall it, view tp spines it
    <-> (exists s, s ∈ range 0 k /\ new_spine s it) \/
        (exists l, l ∈ range 0 (k * 2) /\ new_leaf k spines l it).

Lemma up_down_spec sw idx :
  name_of sw idx ∈ dom (Topo.g tp) ->
  exists ups downs,
    StructuredTopo.up_nodes self (name_of sw idx) = Ok ups /\
    StructuredTopo.down_nodes self (name_of sw idx) = Ok downs /\
    NoDup ups /\ NoDup downs /\
    (forall b, b ∈ ups <->
       b ∈ adj tp (name_of sw idx) /\
       StructuredTopo.layer self b = Ok (sw - 1)) /\
    (forall b, b ∈ downs <->
       b ∈ adj tp (name_of sw idx) /\
       StructuredTopo.layer self b = Ok (sw + 1)).
Proof.
  intros Ha.
  pose proof (layer_of_name t Hwf Hgood sw idx Ha) as Hla.
  destruct (up_nodes_spec self Hwf _ sw Hla Ha) as (ups & Eu & Hu).
  destruct (down_nodes_spec self Hwf _ sw Hla Ha) as (downs & Ed & Hd).
  exists ups, downs. repeat (split; [assumption|]).
  split; [|split; [|split; assumption]].
  - revert Eu. unfold StructuredTopo.up_nodes.
    rewrite Hla, (neighbors_adj self _ Ha). cbn.
    apply filterM_nodup, (proj2 Hgood).
  - revert Ed. unfold StructuredTopo.down_nodes.
    rewrite Hla, (neighbors_adj self _ Ha). cbn.
    apply filterM_nodup, (proj2 Hgood).
Qed.

Lemma leaf_neighbours l :
  0 <= l < k * 2 ->
  exists ups downs,
    StructuredTopo.up_nodes self (name_of 1 l) = Ok ups /\
    StructuredTopo.down_nodes self (name_of 1 l) = Ok downs /\
    ups ≡ₚ name_of 0 <$> range 0 k /\
    downs ≡ₚ name_of 2 <$> range (l * (k / 2)) (l * (k / 2) + k / 2).
Proof.
  intros Hl.
  pose proof (leaf_in_dom k t spines Hsp Hview l Hl) as Ha.
  destruct (up_down_spec 1 l Ha) as (ups & downs & Eu & Ed & Nu & Nd & Hu & Hd).
  exists ups, downs. repeat (split; [assumption|]). split.
  - apply NoDup_Permutation; [assumption|apply NoDup_names|].
    intros b. rewrite Hu, elem_of_names, (adj_leaf k t spines Hsp Hview) by assumption.
    split.
    + intros [[(s & Hs & ->)|(h & Hh & ->)] Hb]; [eauto|].
      rewrite (layer_of_name t Hwf Hgood) in Hb
        by now apply (host_in_dom k t spines Hsp Hview).
      discriminate.
    + intros (s & Hs & ->). split; [left; eauto|].
      apply (layer_of_name t Hwf Hgood).
      now apply (spine_in_dom k t spines Hsp Hview).
  - apply NoDup_Permutation; [assumption|apply NoDup_names|].
    intros b. rewrite Hd, elem_of_names, (adj_leaf k t spines Hsp Hview) by assumption.
    split.
    + intros [[(s & Hs & ->)|(h & Hh & ->)] Hb].
      * rewrite (layer_of_name t Hwf Hgood) in Hb
          by now apply (spine_in_dom k t spines Hsp Hview).
        discriminate.
      * exists (l * (k / 2) + h). split; [lia|reflexivity].
    + intros (i & Hi & ->).
      assert (Hh : 0 <= i - l * (k / 2) < k / 2) by lia.
      replace i with (l * (k / 2) + (i - l * (k / 2))) by lia.
      split; [right; eauto|].
      apply (layer_of_name t Hwf Hgood).
      now apply (host_in_dom k t spines Hsp Hview).
Qed.

Lemma host_neighbours l h :
  0 <= l < k * 2 -> 0 <= h < k / 2 ->
  StructuredTopo.up_nodes self (name_of 2 (l * (k / 2) + h))
  = Ok [name_of 1 l] /\
  StructuredTopo.down_nodes self (name_of 2 (l * (k / 2) + h)) = Ok [].
Proof.
  intros Hl Hh.
  pose proof (host_in_dom k t spines Hsp Hview l h Hl Hh) as Ha.
  destruct (up_down_spec 2 _ Ha) as (ups & downs & Eu & Ed & Nu & Nd & Hu & Hd).
  rewrite Eu, Ed. split; f_equal.
  - apply only_element; [assumption|]. intros b.
    rewrite Hu, (adj_host k t spines Hsp Hview) by assumption. split.
    + now intros [-> _].
    + intros ->. split; [reflexivity|].
      apply (layer_of_name t Hwf Hgood).
      now apply (leaf_in_dom k t spines Hsp Hview).
  - apply no_elements. intros b Hb. apply Hd in Hb as [Hb Hlb].
    apply (adj_host k t spines Hsp Hview) in Hb; [|assumption..]. subst b.
    rewrite (layer_of_name t Hwf Hgood) in Hlb
      by now apply (leaf_in_dom k t spines Hsp Hview).
    discriminate.
Qed.

Lemma spine_neighbours s :
  0 <= s < k ->
  exists downs,
    StructuredTopo.up_nodes self (name_of 0 s) = Ok [] /\
    StructuredTopo.down_nodes self (name_of 0 s) = Ok downs /\
    downs ≡ₚ name_of 1 <$> range 0 (k * 2).
Proof.
  intros Hs.
  pose proof (spine_in_dom k t spines Hsp Hview s Hs) as Ha.
  destruct (up_down_spec 0 _ Ha) as (ups & downs & Eu & Ed & Nu & Nd & Hu & Hd).
  exists downs. rewrite Eu. split; [f_equal|split; [assumption|]].
  - apply no_elements. intros b Hb. apply Hu in Hb as [Hb Hlb].
    apply (adj_spine k t spines Hsp Hview) in Hb as (l & Hl & ->);
      [|assumption].
    rewrite (layer_of_name t Hwf Hgood) in Hlb
      by now apply (leaf_in_dom k t spines Hsp Hview).
    discriminate.
  - apply NoDup_Permutation; [assumption|apply NoDup_names|].
    intros b. rewrite Hd, elem_of_names, (adj_spine k t spines Hsp Hview)
      by assumption.
    split.
    + now intros [H _].
    + intros (l & Hl & ->). split; [eauto|].
      apply (layer_of_name t Hwf Hgood).
      now apply (leaf_in_dom k t spines Hsp Hview).
Qed.

Lemma layer_lists l0 l1 l2 :
  0 <= k ->
  StructuredTopo.layer_nodes self 0 = Ok l0 ->
  StructuredTopo.layer_nodes self 1 = Ok l1 ->
  StructuredTopo.layer_nodes self 2 = Ok l2 ->
  l0 ≡ₚ name_of 0 <$> range 0 k /\
  l1 ≡ₚ name_of 1 <$> range 0 (k * 2) /\
  l2 ≡ₚ name_of 2 <$> range 0 (k * 2 * (k / 2)).
Proof.
  intros Hk E0 E1 E2.
  destruct (layer_nodes_spec t Hwf 0) as (l0' & E0' & N0 & H0).
  destruct (layer_nodes_spec t Hwf 1) as (l1' & E1' & N1 & H1).
  destruct (layer_nodes_spec t Hwf 2) as (l2' & E2' & N2 & H2).
  assert (l0' = l0) as -> by congruence.
  assert (l1' = l1) as -> by congruence.
  assert (l2' = l2) as -> by congruence.
  split; [|split]; (apply NoDup_Permutation; [assumption|apply NoDup_names|]);
    intros x; rewrite elem_of_names.
  - rewrite H0. apply (in_layer0 k t spines Hwf Hgood Hsp Hview).
  - rewrite H1. apply (in_layer1 k t spines Hwf Hgood Hsp Hview).
  - rewrite H2, (in_layer2 k t spines Hwf Hgood Hsp Hview). split.
    + intros (l & h & Hl & Hh & ->). exists (l * (k / 2) + h).
      split; [|reflexivity]. apply host_index; eauto.
    + intros (i & Hi%host_index & ->); [|assumption].
      destruct Hi as (l & h & Hl & Hh & ->). eauto.
Qed.

End Degrees.

(** In the graph built for any [k], every vertex is in exactly one of the
    layers 0, 1 and 2: the three layer lists together are a permutation of
    the vertex list, and every other layer is empty. *)
Theorem layer_partition (k : Z) (speed : Q) :
  exists t l0 l1 l2,
    LeafSpineTopo.init k speed = Ok t /\
    StructuredTopo.layer_nodes (LeafSpineTopo.base t) LeafSpineTopo.LAYER_SPINE
    = Ok l0 /\
    StructuredTopo.layer_nodes (LeafSpineTopo.base t) LeafSpineTopo.LAYER_LEAF
    = Ok l1 /\
    StructuredTopo.layer_nodes (LeafSpineTopo.base t) LeafSpineTopo.LAYER_HOST
    = Ok l2 /\
    Topo.nodes (StructuredTopo.topo (LeafSpineTopo.base t))
      ≡ₚ (l0 ++ l1 ++ l2)%list /\
    forall i, ~ 0 <= i <= 2 ->
      StructuredTopo.layer_nodes (LeafSpineTopo.base t) i = Ok [].
Proof.
  destruct (init_facts k speed) as (t & sp & E & Hwf & Hgood & Hsp & Hview).
  destruct (layer_nodes_spec t Hwf 0) as (l0 & E0 & _).
  destruct (layer_nodes_spec t Hwf 1) as (l1 & E1 & _).
  destruct (layer_nodes_spec t Hwf 2) as (l2 & E2 & _).
  exists t, l0, l1, l2. repeat (split; [assumption|]). split.
  - now apply layers_partition.
  - intros i Hi. now apply layer_nodes_outside.
Qed.

(** In the graph built for any [k], every edge joins adjacent layers: the
    adjacency list of a vertex is a permutation of its up-neighbours followed
    by its down-neighbours, and every neighbour is exactly one layer above
    or below the vertex. *)
Theorem neighbours_up_or_down (k : Z) (speed : Q) :
  exists t,
    LeafSpineTopo.init k speed = Ok t /\
    forall a ns,
      Topo.neighbors (StructuredTopo.topo (LeafSpineTopo.base t)) a = Ok ns ->
      (exists ups downs,
         StructuredTopo.up_nodes (LeafSpineTopo.base t) a = Ok ups /\
         StructuredTopo.down_nodes (LeafSpineTopo.base t) a = Ok downs /\
         ns ≡ₚ (ups ++ downs)%list) /\
      forall b, b ∈ ns ->
        exists la,
          StructuredTopo.layer (LeafSpineTopo.base t) a = Ok la /\
          (StructuredTopo.layer (LeafSpineTopo.base t) b = Ok (la - 1) \/
           StructuredTopo.layer (LeafSpineTopo.base t) b = Ok (la + 1)).
Proof.
  destruct (init_facts k speed) as (t & sp & E & Hwf & Hgood & Hsp & Hview).
  exists t. split; [exact E|]. intros a ns Hns. split.
  - exact (neighbours_split k t sp Hwf Hgood Hsp Hview a ns Hns).
  - intros b Hb. apply (neighbour_layers k t sp Hwf Hgood Hsp Hview).
    unfold Topo.neighbors in Hns. unfold adj, nbrs.
    destruct (Topo.g (StructuredTopo.topo (LeafSpineTopo.base t)) !! a);
      [|discriminate].
    injection Hns as ->. exact Hb.
Qed.

(** For every [k >= 0] the built graph has exactly [k] spines, [2k] leaves
    and [2k * (k / 2)] hosts: the layer lists are permutations of the names
    [0_s], [1_l] and [2_i] over these ranges, without repetition. *)
Theorem layer_counts (k : Z) (speed : Q) :
  0 <= k ->
  exists t l0 l1 l2,
    LeafSpineTopo.init k speed = Ok t /\
    StructuredTopo.layer_nodes (LeafSpineTopo.base t) LeafSpineTopo.LAYER_SPINE
    = Ok l0 /\
    StructuredTopo.layer_nodes (LeafSpineTopo.base t) LeafSpineTopo.LAYER_LEAF
    = Ok l1 /\
    StructuredTopo.layer_nodes (LeafSpineTopo.base t) LeafSpineTopo.LAYER_HOST
    = Ok l2 /\
    l0 ≡ₚ name_of 0 <$> range 0 k /\
    l1 ≡ₚ name_of 1 <$> range 0 (k * 2) /\
    l2 ≡ₚ name_of 2 <$> range 0 (k * 2 * (k / 2)) /\
    length l0 = Z.to_nat k /\
    length l1 = Z.to_nat (k * 2) /\
    length l2 = Z.to_nat (k * 2 * (k / 2)) /\
    length (Topo.nodes (StructuredTopo.topo (LeafSpineTopo.base t)))
    = Z.to_nat (k + k * 2 + k * 2 * (k / 2)).
Proof.
  intros Hk.
  destruct (init_facts k speed) as (t & sp & E & Hwf & Hgood & Hsp & Hview).
  destruct (layer_nodes_spec t Hwf 0) as (l0 & E0 & _).
  destruct (layer_nodes_spec t Hwf 1) as (l1 & E1 & _).
  destruct (layer_nodes_spec t Hwf 2) as (l2 & E2 & _).
  destruct (layer_lists k t sp Hwf Hgood Hsp Hview l0 l1 l2 Hk E0 E1 E2)
    as (P0 & P1 & P2).
  pose proof (layers_partition t Hwf Hgood l0 l1 l2 E0 E1 E2) as PN.
  assert (L0 : length l0 = Z.to_nat k).
  { rewrite P0, length_fmap, length_range. f_equal. lia. }
  assert (L1 : length l1 = Z.to_nat (k * 2)).
  { rewrite P1, length_fmap, length_range. f_equal. lia. }
  assert (L2 : length l2 = Z.to_nat (k * 2 * (k / 2))).
  { rewrite P2, length_fmap, length_range. f_equal. lia. }
  exists t, l0, l1, l2. repeat (split; [assumption|]).
  rewrite PN, !length_app, L0, L1, L2.
  assert (0 <= k / 2) by (apply Z.div_pos; lia). nia.
Qed.

Lemma layer_counts_witness :
  exists t l0 l1 l2,
    LeafSpineTopo.init 3 1%Q = Ok t /\
    StructuredTopo.layer_nodes (LeafSpineTopo.base t) LeafSpineTopo.LAYER_SPINE
    = Ok l0 /\
    StructuredTopo.layer_nodes (LeafSpineTopo.base t) LeafSpineTopo.LAYER_LEAF
    = Ok l1 /\
    StructuredTopo.layer_nodes (LeafSpineTopo.base t) LeafSpineTopo.LAYER_HOST
    = Ok l2 /\
    l0 ≡ₚ name_of 0 <$> range 0 3 /\
    l1 ≡ₚ name_of 1 <$> range 0 (3 * 2) /\
    l2 ≡ₚ name_of 2 <$> range 0 (3 * 2 * (3 / 2)) /\
    length l0 = Z.to_nat 3 /\
    length l1 = Z.to_nat (3 * 2) /\
    length l2 = Z.to_nat (3 * 2 * (3 / 2)) /\
    length (Topo.nodes (StructuredTopo.topo (LeafSpineTopo.base t)))
    = Z.to_nat (3 + 3 * 2 + 3 * 2 * (3 / 2)).
Proof.
  apply (layer_counts 3 1%Q). lia.
Defined.

(** In the graph built for [k], the leaf [1_l] (for [0 <= l < 2k]) has
    exactly [k] up-neighbours, the [k] spines, and exactly [k / 2]
    down-neighbours, the hosts [2_i] with [l * (k / 2) <= i < (l + 1) *
    (k / 2)]; its up- and down-edges pair it with these. *)
Theorem leaf_degree (k : Z) (speed : Q) (l : Z) :
  0 <= l < k * 2 ->
  exists t ups downs,
    LeafSpineTopo.init k speed = Ok t /\
    StructuredTopo.up_nodes (LeafSpineTopo.base t) (name_of 1 l) = Ok ups /\
    StructuredTopo.down_nodes (LeafSpineTopo.base t) (name_of 1 l)
    = Ok downs /\
    StructuredTopo.up_edges (LeafSpineTopo.base t) (name_of 1 l)
    = Ok (List.map (fun n => (name_of 1 l, n)) ups) /\
    StructuredTopo.down_edges (LeafSpineTopo.base t) (name_of 1 l)
    = Ok (List.map (fun n => (name_of 1 l, n)) downs) /\
    ups ≡ₚ name_of 0 <$> range 0 k /\
    downs ≡ₚ name_of 2 <$> range (l * (k / 2)) (l * (k / 2) + k / 2) /\
    length ups = Z.to_nat k /\
    length downs = Z.to_nat (k / 2).
Proof.
  intros Hl.
  destruct (init_facts k speed) as (t & sp & E & Hwf & Hgood & Hsp & Hview).
  destruct (leaf_neighbours k t sp Hwf Hgood Hsp Hview l Hl)
    as (ups & downs & Eu & Ed & Pu & Pd).
  exists t, ups, downs. repeat (split; [assumption|]).
  split; [unfold StructuredTopo.up_edges; now rewrite Eu|].
  split; [unfold StructuredTopo.down_edges; now rewrite Ed|].
  repeat (split; [assumption|]). split.
  - rewrite Pu, length_fmap, length_range. f_equal. lia.
  - rewrite Pd, length_fmap, length_range. f_equal. lia.
Qed.

Lemma leaf_degree_witness :
  exists t ups downs,
    LeafSpineTopo.init 4 1%Q = Ok t /\
    StructuredTopo.up_nodes (LeafSpineTopo.base t) (name_of 1 3) = Ok ups /\
    StructuredTopo.down_nodes (LeafSpineTopo.base t) (name_of 1 3)
    = Ok downs /\
    StructuredTopo.up_edges (LeafSpineTopo.base t) (name_of 1 3)
    = Ok (List.map (fun n => (name_of 1 3, n)) ups) /\
    StructuredTopo.down_edges (LeafSpineTopo.base t) (name_of 1 3)
    = Ok (List.map (fun n => (name_of 1 3, n)) downs) /\
    ups ≡ₚ name_of 0 <$> range 0 4 /\
    downs ≡ₚ name_of 2 <$> range (3 * (4 / 2)) (3 * (4 / 2) + 4 / 2) /\
    length ups = Z.to_nat 4 /\
    length downs = Z.to_nat (4 / 2).
Proof.
  apply (leaf_degree 4 1%Q 3). lia.
Defined.

(** In the graph built for [k], host number [h] of leaf [l] (the vertex
    [2_(l * (k / 2) + h)]) has exactly one up-neighbour, its leaf [1_l],
    hence exactly one up-edge, and no down-neighbour. *)
Theorem host_degree (k : Z) (speed : Q) (l h : Z) :
  0 <= l < k * 2 ->
  0 <= h < k / 2 ->
  exists t,
    LeafSpineTopo.init k speed = Ok t /\
    StructuredTopo.up_nodes (LeafSpineTopo.base t)
      (name_of 2 (l * (k / 2) + h)) = Ok [name_of 1 l] /\
    StructuredTopo.up_edges (LeafSpineTopo.base t)
      (name_of 2 (l * (k / 2) + h))
    = Ok [(name_of 2 (l * (k / 2) + h), name_of 1 l)] /\
    StructuredTopo.down_nodes (LeafSpineTopo.base t)
      (name_of 2 (l * (k / 2) + h)) = Ok [] /\
    StructuredTopo.down_edges (LeafSpineTopo.base t)
      (name_of 2 (l * (k / 2) + h)) = Ok [].
Proof.
  intros Hl Hh.
  destruct (init_facts k speed) as (t & sp & E & Hwf & Hgood & Hsp & Hview).
  destruct (host_neighbours k t sp Hwf Hgood Hsp Hview l h Hl Hh) as [Eu Ed].
  exists t. split; [assumption|]. split; [assumption|].
  split; [unfold StructuredTopo.up_edges; now rewrite Eu|].
  split; [assumption|].
  unfold StructuredTopo.down_edges. now rewrite Ed.
Qed.

Lemma host_degree_witness :
  exists t,
    LeafSpineTopo.init 4 1%Q = Ok t /\
    StructuredTopo.up_nodes (LeafSpineTopo.base t)
      (name_of 2 (3 * (4 / 2) + 1)) = Ok [name_of 1 3] /\
    StructuredTopo.up_edges (LeafSpineTopo.base t)
      (name_of 2 (3 * (4 / 2) + 1))
    = Ok [(name_of 2 (3 * (4 / 2) + 1), name_of 1 3)] /\
    StructuredTopo.down_nodes (LeafSpineTopo.base t)
      (name_of 2 (3 * (4 / 2) + 1)) = Ok [] /\
    StructuredTopo.down_edges (LeafSpineTopo.base t)
      (name_of 2 (3 * (4 / 2) + 1)) = Ok [].
Proof.
  apply (host_degree 4 1%Q 3 1); vm_compute; split; congruence.
Defined.

(** In the graph built for [k], every spine [0_s] (for [0 <= s < k]) has no
    up-neighbour and exactly [2k] down-neighbours, the leaves. *)
Theorem spine_degree (k : Z) (speed : Q) (s : Z) :
  0 <= s < k ->
  exists t downs,
    LeafSpineTopo.init k speed = Ok t /\
    StructuredTopo.up_nodes (LeafSpineTopo.base t) (name_of 0 s) = Ok [] /\
    StructuredTopo.down_nodes (LeafSpineTopo.base t) (name_of 0 s)
    = Ok downs /\
    downs ≡ₚ name_of 1 <$> range 0 (k * 2) /\
    length downs = Z.to_nat (k * 2).
Proof.
  intros Hs.
  destruct (init_facts k speed) as (t & sp & E & Hwf & Hgood & Hsp & Hview).
  destruct (spine_neighbours k t sp Hwf Hgood Hsp Hview s Hs)
    as (downs & Eu & Ed & Pd).
  exists t, downs. repeat (split; [assumption|]).
  rewrite Pd, length_fmap, length_range. f_equal. lia.
Qed.

Lemma spine_degree_witness :
  exists t downs,
    LeafSpineTopo.init 4 1%Q = Ok t /\
    StructuredTopo.up_nodes (LeafSpineTopo.base t) (name_of 0 2) = Ok [] /\
    StructuredTopo.down_nodes (LeafSpineTopo.base t) (name_of 0 2)
    = Ok downs /\
    downs ≡ₚ name_of 1 <$> range 0 (4 * 2) /\
    length downs = Z.to_nat (4 * 2).
Proof.
  apply (spine_degree 4 1%Q 2). lia.
Defined.

(** For [k <= 0] all the loops of the constructor are empty: it returns
    the empty graph, with no vertex, no metadata and no link. *)
Theorem nonpositive_k_empty (k : Z) (speed : Q) :
  k <= 0 ->
  exists t,
    LeafSpineTopo.init k speed = Ok t /\
    StructuredTopo.topo (LeafSpineTopo.base t) = Topo.init /\
    Topo.nodes (StructuredTopo.topo (LeafSpineTopo.base t)) = [].
Proof.
  intros Hk. unfold LeafSpineTopo.init.
  assert (R1 : range 0 k = []).
  { unfold range. replace (Z.to_nat (k - 0)) with O by lia. reflexivity. }
  assert (R2 : range 0 (k * 2) = []).
  { unfold range. replace (Z.to_nat (k * 2 - 0)) with O by lia. reflexivity. }
  rewrite R1, R2. cbn. eexists. split; [reflexivity|]. split; reflexivity.
Qed.

Lemma nonpositive_k_empty_witness :
  exists t,
    LeafSpineTopo.init (-3) 1%Q = Ok t /\
    StructuredTopo.topo (LeafSpineTopo.base t) = Topo.init /\
    Topo.nodes (StructuredTopo.topo (LeafSpineTopo.base t)) = [].
Proof.
  apply (nonpositive_k_empty (-3) 1%Q). lia.
Defined.

(** ** Field widths in the built graphs *)

Lemma node_id_dpid sw idx :
  LeafSpineNodeID.dpid (node_id sw idx) = sw * 256 + idx.
Proof.
  cbn [node_id LeafSpineNodeID.dpid].
  rewrite Z.shiftl_mul_pow2 by lia. reflexivity.
Qed.

Lemma vertex_names k speed :
  exists t,
    LeafSpineTopo.init k speed = Ok t /\
    forall a, a ∈ Topo.nodes (StructuredTopo.topo (LeafSpineTopo.base t)) <->
      (exists s, 0 <= s < k /\ a = name_of 0 s) \/
      (exists l, 0 <= l < k * 2 /\ a = name_of 1 l) \/
      (exists l h, 0 <= l < k * 2 /\ 0 <= h < k / 2 /\
         a = name_of 2 (l * (k / 2) + h)).
Proof.
  destruct (init_facts k speed) as (t & sp & E & Hwf & Hgood & Hsp & Hview).
  exists t. split; [exact E|]. intros a. rewrite elem_of_nodes.
  apply (dom_built k t sp Hsp Hview).
Qed.

(** Up to [k = 16] every vertex of the built graph has both fields within
    [0, 255], so its handle decodes back to its identifier. *)
Theorem vertices_in_range (k : Z) (speed : Q) :
  k <= 16 ->
  exists t,
    LeafSpineTopo.init k speed = Ok t /\
    forall a,
      a ∈ Topo.nodes (StructuredTopo.topo (LeafSpineTopo.base t)) ->
      exists id,
        LeafSpineNodeID.init 0 0 None (Some a) = Ok id /\
        0 <= LeafSpineNodeID.sw id <= 255 /\
        0 <= LeafSpineNodeID.host id <= 255 /\
        LeafSpineNodeID.init 0 0 (Some (LeafSpineNodeID.dpid id)) None = Ok id.
Proof.
  intros Hk. destruct (vertex_names k speed) as (t & E & Hv).
  exists t. split; [exact E|]. intros a Ha.
  assert (Hm : k / 2 <= 8) by (apply Z.div_le_upper_bound; lia).
  assert (Hr : exists sw idx,
            a = name_of sw idx /\ 0 <= sw <= 255 /\ 0 <= idx <= 255).
  { apply Hv in Ha as [(s & Hs & ->)|[(l & Hl & ->)|(l & h & Hl & Hh & ->)]].
    - exists 0, s. repeat split; lia.
    - exists 1, l. repeat split; lia.
    - exists 2, (l * (k / 2) + h). repeat split; nia. }
  destruct Hr as (sw & idx & -> & Hsw & Hidx).
  exists (node_id sw idx). rewrite name_of_parse.
  cbn [node_id LeafSpineNodeID.sw LeafSpineNodeID.host LeafSpineNodeID.dpid].
  repeat (split; [reflexivity || lia|]).
  now apply init_dpid_pack.
Qed.

Lemma vertices_in_range_witness :
  exists t,
    LeafSpineTopo.init 4 1%Q = Ok t /\
    forall a,
      a ∈ Topo.nodes (StructuredTopo.topo (LeafSpineTopo.base t)) ->
      exists id,
        LeafSpineNodeID.init 0 0 None (Some a) = Ok id /\
        0 <= LeafSpineNodeID.sw id <= 255 /\
        0 <= LeafSpineNodeID.host id <= 255 /\
        LeafSpineNodeID.init 0 0 (Some (LeafSpineNodeID.dpid id)) None = Ok id.
Proof. apply (vertices_in_range 4 1%Q). lia. Defined.

(** From [k = 17] on the host lane overflows: the host [2_256] is a vertex
    of the built graph, its handle is 768, and that handle decodes to the
    fields (3, 0) instead of (2, 256). *)
Theorem host_lane_overflow (k : Z) (speed : Q) :
  17 <= k ->
  exists t id id',
    LeafSpineTopo.init k speed = Ok t /\
    name_of 2 256 ∈ Topo.nodes (StructuredTopo.topo (LeafSpineTopo.base t)) /\
    LeafSpineNodeID.init 0 0 None (Some (name_of 2 256)) = Ok id /\
    LeafSpineNodeID.sw id = 2 /\ LeafSpineNodeID.host id = 256 /\
    LeafSpineNodeID.dpid id = 768 /\
    LeafSpineNodeID.init 0 0 (Some (LeafSpineNodeID.dpid id)) None = Ok id' /\
    LeafSpineNodeID.sw id' = 3 /\ LeafSpineNodeID.host id' = 0.
Proof.
  intros Hk. destruct (vertex_names k speed) as (t & E & Hv).
  exists t, (node_id 2 256), (LeafSpineNodeID.mk 3 0 768).
  split; [exact E|]. split.
  - apply Hv. right. right.
    assert (Hm : 8 <= k / 2) by (apply Z.div_le_lower_bound; lia).
    exists (256 / (k / 2)), (256 mod (k / 2)).
    pose proof (Z.mod_pos_bound 256 (k / 2) ltac:(lia)) as Hb.
    pose proof (Z.div_mod 256 (k / 2) ltac:(lia)) as Hd.
    split; [split|split].
    + apply Z.div_pos; lia.
    + apply Z.div_lt_upper_bound; nia.
    + assumption.
    + f_equal. lia.
  - rewrite name_of_parse. repeat split.
Qed.

Lemma host_lane_overflow_witness :
  exists t id id',
    LeafSpineTopo.init 17 1%Q = Ok t /\
    name_of 2 256 ∈ Topo.nodes (StructuredTopo.topo (LeafSpineTopo.base t)) /\
    LeafSpineNodeID.init 0 0 None (Some (name_of 2 256)) = Ok id /\
    LeafSpineNodeID.sw id = 2 /\ LeafSpineNodeID.host id = 256 /\
    LeafSpineNodeID.dpid id = 768 /\
    LeafSpineNodeID.init 0 0 (Some (LeafSpineNodeID.dpid id)) None = Ok id' /\
    LeafSpineNodeID.sw id' = 3 /\ LeafSpineNodeID.host id' = 0.
Proof. apply (host_lane_overflow 17 1%Q). lia. Defined.

(** Up to [k = 128] the handles of the vertices are pairwise distinct, also
    where the host lane has overflowed: two vertices whose identifiers share
    a handle are the same vertex. *)
Theorem handles_distinct (k : Z) (speed : Q) :
  k <= 128 ->
  exists t,
    LeafSpineTopo.init k speed = Ok t /\
    forall a b ida idb,
      a ∈ Topo.nodes (StructuredTopo.topo (LeafSpineTopo.base t)) ->
      b ∈ Topo.nodes (StructuredTopo.topo (LeafSpineTopo.base t)) ->
      LeafSpineNodeID.init 0 0 None (Some a) = Ok ida ->
      LeafSpineNodeID.init 0 0 None (Some b) = Ok idb ->
      LeafSpineNodeID.dpid ida = LeafSpineNodeID.dpid idb ->
      a = b.
Proof.
  intros Hk. destruct (vertex_names k speed) as (t & E & Hv).
  exists t. split; [exact E|]. intros a b ida idb Ha Hb.
  assert (Hm : 0 <= k -> 0 <= k / 2) by (intros; apply Z.div_pos; lia).
  assert (Hr : forall x,
            x ∈ Topo.nodes (StructuredTopo.topo (LeafSpineTopo.base t)) ->
            exists sw idx, x = name_of sw idx /\
              (sw = 0 /\ 0 <= idx < 256 \/ sw = 1 /\ 0 <= idx < 256 \/
               sw = 2 /\ 0 <= idx)).
  { intros x Hx.
    apply Hv in Hx as [(s & Hs & ->)|[(l & Hl & ->)|(l & h & Hl & Hh & ->)]].
    - exists 0, s. split; [reflexivity|]. left. lia.
    - exists 1, l. split; [reflexivity|]. right. left. lia.
    - exists 2, (l * (k / 2) + h). split; [reflexivity|]. right. right.
      split; [reflexivity|]. nia. }
  destruct (Hr a Ha) as (sa & ia & -> & Ca).
  destruct (Hr b Hb) as (sb & ib & -> & Cb).
  rewrite !name_of_parse. intros [= <-] [= <-].
  rewrite !node_id_dpid. intros Hd.
  assert (sa = sb /\ ia = ib) as [-> ->] by lia. reflexivity.
Qed.

Lemma handles_distinct_witness :
  exists t,
    LeafSpineTopo.init 2 1%Q = Ok t /\
    forall a b ida idb,
      a ∈ Topo.nodes (StructuredTopo.topo (LeafSpineTopo.base t)) ->
      b ∈ Topo.nodes (StructuredTopo.topo (LeafSpineTopo.base t)) ->
      LeafSpineNodeID.init 0 0 None (Some a) = Ok ida ->
      LeafSpineNodeID.init 0 0 None (Some b) = Ok idb ->
      LeafSpineNodeID.dpid ida = LeafSpineNodeID.dpid idb ->
      a = b.
Proof. apply (handles_distinct 2 1%Q). lia. Defined.

(** From [k = 129] on handles collide: the leaf [1_256] and the host [2_0]
    are two different vertices of the built graph with the same handle
    512. *)
Theorem handle_collision (k : Z) (speed : Q) :
  129 <= k ->
  exists t ida idb,
    LeafSpineTopo.init k speed = Ok t /\
    name_of 1 256 ∈ Topo.nodes (StructuredTopo.topo (LeafSpineTopo.base t)) /\
    name_of 2 0 ∈ Topo.nodes (StructuredTopo.topo (LeafSpineTopo.base t)) /\
    name_of 1 256 <> name_of 2 0 /\
    LeafSpineNodeID.init 0 0 None (Some (name_of 1 256)) = Ok ida /\
    LeafSpineNodeID.init 0 0 None (Some (name_of 2 0)) = Ok idb /\
    LeafSpineNodeID.dpid ida = 512 /\
    LeafSpineNodeID.dpid idb = 512.
Proof.
  intros Hk. destruct (vertex_names k speed) as (t & E & Hv).
  exists t, (node_id 1 256), (node_id 2 0). split; [exact E|].
  assert (Hm : 64 <= k / 2) by (apply Z.div_le_lower_bound; lia).
  split; [|split; [|split]].
  - apply Hv. right. left. exists 256. split; [lia|reflexivity].
  - apply Hv. right. right. exists 0, 0. repeat split; lia.
  - discriminate.
  - rewrite !name_of_parse. repeat split.
Qed.

Lemma handle_collision_witness :
  exists t ida idb,
    LeafSpineTopo.init 129 1%Q = Ok t /\
    name_of 1 256 ∈ Topo.nodes (StructuredTopo.topo (LeafSpineTopo.base t)) /\
    name_of 2 0 ∈ Topo.nodes (StructuredTopo.topo (LeafSpineTopo.base t)) /\
    name_of 1 256 <> name_of 2 0 /\
    LeafSpineNodeID.init 0 0 None (Some (name_of 1 256)) = Ok ida /\
    LeafSpineNodeID.init 0 0 None (Some (name_of 2 0)) = Ok idb /\
    LeafSpineNodeID.dpid ida = 512 /\
    LeafSpineNodeID.dpid idb = 512.
Proof. apply (handle_collision 129 1%Q). lia. Defined.

(** ** Hardware addresses, ports and malformed names *)

Lemma fmt_0x2_bytes :
  forallb (fun n =>
    Nat.eqb (String.length (fmt_0x 2 (Z.of_nat n))) 2 &&
    forallb (fun m =>
      implb (String.eqb (fmt_0x 2 (Z.of_nat n)) (fmt_0x 2 (Z.of_nat m)))
            (Nat.eqb n m)) (seq 0 256)) (seq 0 256) = true.
Proof. vm_compute. reflexivity. Qed.

Lemma fmt_0x2_length v :
  0 <= v <= 255 -> String.length (fmt_0x 2 v) = 2%nat.
Proof.
  intros Hv. pose proof fmt_0x2_bytes as H.
  rewrite forallb_forall in H.
  specialize (H (Z.to_nat v)). rewrite Z2Nat.id in H by lia.
  destruct (andb_prop _ _ (H ltac:(apply in_seq; lia))) as [Hl _].
  now apply Nat.eqb_eq.
Qed.

Lemma fmt_0x2_inj v w :
  0 <= v <= 255 -> 0 <= w <= 255 -> fmt_0x 2 v = fmt_0x 2 w -> v = w.
Proof.
  intros Hv Hw E. pose proof fmt_0x2_bytes as H.
  rewrite forallb_forall in H.
  specialize (H (Z.to_nat v)). rewrite Z2Nat.id in H by lia.
  destruct (andb_prop _ _ (H ltac:(apply in_seq; lia))) as [_ Hi].
  rewrite forallb_forall in Hi.
  specialize (Hi (Z.to_nat w)). rewrite Z2Nat.id in Hi by lia.
  specialize (Hi ltac:(apply in_seq; lia)).
  rewrite E, String.eqb_refl in Hi. cbn in Hi.
  apply Nat.eqb_eq in Hi. lia.
Qed.

Lemma two_lanes a b a' b' :
  String.length a = 2%nat -> String.length a' = 2%nat ->
  a +:+ ":" +:+ b = a' +:+ ":" +:+ b' -> a = a' /\ b = b'.
Proof.
  destruct a as [|c1 [|c2 [|c3 a]]]; try discriminate.
  destruct a' as [|d1 [|d2 [|d3 a']]]; try discriminate.
  cbv [String.append]. intros _ _ [= -> -> ->]. split; reflexivity.
Qed.

Lemma length_append_str s1 s2 :
  String.length (s1 +:+ s2) = (String.length s1 + String.length s2)%nat.
Proof.
  induction s1 as [|c s1 IH]; [reflexivity|].
  change (S (String.length (s1 +:+ s2))
          = S (String.length s1 + String.length s2)).
  now rewrite IH.
Qed.

(** For in-range fields the hardware address has the standard 17
    characters, and identifiers with different fields have different
    hardware addresses. *)
Theorem mac_str_in_range (sw1 host1 sw2 host2 : Z)
    (id1 id2 : LeafSpineNodeID.t) :
  0 <= sw1 <= 255 -> 0 <= host1 <= 255 ->
  0 <= sw2 <= 255 -> 0 <= host2 <= 255 ->
  LeafSpineNodeID.init sw1 host1 None None = Ok id1 ->
  LeafSpineNodeID.init sw2 host2 None None = Ok id2 ->
  String.length (LeafSpineNodeID.mac_str id1) = 17%nat /\
  (LeafSpineNodeID.mac_str id1 = LeafSpineNodeID.mac_str id2 -> id1 = id2).
Proof.
  intros H1 H2 H3 H4. rewrite !init_fields. intros [= <-] [= <-].
  unfold LeafSpineNodeID.mac_str.
  cbn [LeafSpineNodeID.sw LeafSpineNodeID.host]. split.
  - rewrite !length_append_str, !fmt_0x2_length by assumption. reflexivity.
  - intros E. apply (inj (String.append "00:00:00:00:")) in E.
    apply two_lanes in E as [Ea Eb]; [|now apply fmt_0x2_length..].
    apply fmt_0x2_inj in Ea; [|assumption..].
    apply fmt_0x2_inj in Eb; [|assumption..].
    now subst.
Qed.

Lemma mac_str_in_range_witness :
  String.length (LeafSpineNodeID.mac_str (LeafSpineNodeID.mk 2 10 522))
  = 17%nat /\
  (LeafSpineNodeID.mac_str (LeafSpineNodeID.mk 2 10 522)
   = LeafSpineNodeID.mac_str (LeafSpineNodeID.mk 2 11 523) ->
   LeafSpineNodeID.mk 2 10 522 = LeafSpineNodeID.mk 2 11 523).
Proof.
  apply (mac_str_in_range 2 10 2 11); try lia; reflexivity.
Defined.

(** A port faces up exactly when its number is odd, negative numbers
    included. *)
Theorem isPortUp_odd (port : Z) : StructuredTopo.isPortUp port = Z.odd port.
Proof.
  unfold StructuredTopo.isPortUp, PORT_BASE. rewrite Zmod_odd.
  now destruct (Z.odd port).
Qed.

(** [def_nopts] hands a non-empty name to the identifier constructor, so a
    name that does not hold exactly one underscore makes it fail with a
    [ValueError], for every layer. *)
Theorem def_nopts_bad_name (lay : Z) (name : string) :
  name <> "" -> count_char "_" name <> 1%nat ->
  exists msg,
    LeafSpineTopo.def_nopts lay (Some name) = Raise (ValueError msg).
Proof.
  intros Hne Hc. unfold LeafSpineTopo.def_nopts, LeafSpineTopo.id_gen.
  destruct (LeafSpineNodeID.init 0 0 None (Some name)) as [id|e] eqn:E.
  - exfalso. revert E. unfold LeafSpineNodeID.init. cbn [truthy_int].
    destruct name as [|c name']; [congruence|]. cbn [truthy_str].
    set (name := String c name') in *.
    unfold mbind, result_bind.
    destruct (mapM Py.int (split "_" name)) as [vs|e] eqn:E; cbn [bind];
      [|discriminate].
    apply mapM_int_length in E. rewrite split_length in E.
    destruct vs as [|v1 [|v2 [|v3 vs]]]; cbn [length] in E; try discriminate.
    exfalso. apply Hc. lia.
  - destruct name as [|c name']; [congruence|]. cbn [truthy_str].
    unfold mbind, result_bind. rewrite E. cbn [bind].
    revert E. unfold LeafSpineNodeID.init. cbn [truthy_int truthy_str].
    unfold mbind, result_bind.
    destruct (mapM Py.int (split "_" (String c name'))) as [vs|e'] eqn:E';
      cbn [bind].
    + destruct vs as [|v1 [|v2 [|v3 vs]]]; intros [= <-]; eauto.
    + apply mapM_int_raises in E'. subst e'. intros [= <-].
      unfold invalid_literal. eauto.
Qed.

Lemma def_nopts_bad_name_witness :
  exists msg,
    LeafSpineTopo.def_nopts 1 (Some "s1") = Raise (ValueError msg).
Proof.
  apply (def_nopts_bad_name 1 "s1"); [discriminate|].
  vm_compute. lia.
Defined.

